(** * goreq: a shallow embedding of the request builder and of [Fetch]

    The development follows [goreq.go]: the retry policies, the request
    descriptor [Request] with its chainable configuration methods, the
    materialisation of the wire request ([makeRequest]) and the execution
    pipeline ([Fetch]).

    Go values that are references (the header map and the [*url.URL] of a
    descriptor, the caller's tee buffer) live in an explicit store and the
    descriptor holds their locations, so that the shallow copy made by
    [Clone] aliases them as it does in Go.  A run-time panic is an explicit
    outcome.  The packages goreq calls into (net/url, encoding/json, the
    decompressors, the transport) are a record of capabilities. *)

From Stdlib Require Import ZArith String Ascii.
From Stdlib.Strings Require Import Byte.
From stdpp Require Import base option list gmap strings.

Open Scope string_scope.

Module Goreq.

(** ** Errors and contexts *)

(** A Go [error] value: an identity, its message, and the error it wraps.
    Two calls of [errors.New] with one text give different values; the
    identity tells them apart.  Errors made by goreq itself carry identity 0. *)
Inductive error : Type :=
| NewError (id : N) (msg : string)
| WrapError (id : N) (msg : string) (inner : error).

Definition Error (e : error) : string :=
  match e with NewError _ m => m | WrapError _ m _ => m end.

Fixpoint error_eqb (a b : error) : bool :=
  match a, b with
  | NewError i m, NewError j n => N.eqb i j && String.eqb m n
  | WrapError i m x, WrapError j n y => N.eqb i j && String.eqb m n && error_eqb x y
  | _, _ => false
  end.

(** [errors.Is]: [err] or one of the errors it wraps is [target]. *)
Fixpoint errors_Is (err target : error) : bool :=
  error_eqb err target ||
  match err with
  | NewError _ _ => false
  | WrapError _ _ inner => errors_Is inner target
  end.

Definition errors_New (msg : string) : error := NewError 0 msg.

(** A [context.Context] as far as goreq looks at it: what [Err] returns and
    the cancellation cause. *)
Record Context : Type := mkContext {
  ctx_err : option error;
  ctx_cause : option error
}.

Definition context_Background : Context := mkContext None None.
Definition context_Canceled : error := NewError 0 "context canceled".

(** [ctx, cancel := context.WithCancelCause(parent); cancel(cause)].  The
    child of a context that is already done keeps the parent's error and
    cause. *)
Definition cancelWithCause (parent : Context) (cause : error) : Context :=
  match ctx_err parent with
  | Some _ => parent
  | None => mkContext (Some context_Canceled) (Some cause)
  end.

(** ** Outcomes of code that may panic *)

Inductive outcome (A : Type) : Type :=
| Ok (a : A)
| Fault (msg : string).
Arguments Ok {A} a.
Arguments Fault {A} msg.

Definition nilDeref : string := "invalid memory address or nil pointer dereference".

(** ** HTTP data *)

Abbreviation Header := (gmap string (list string)).
Abbreviation Values := (gmap string (list string)).

(** [h.Get(key)] for a key already in canonical form, and [url.Values.Get]:
    the first value of the key, or the empty string. *)
Definition firstValue (h : gmap string (list string)) (key : string) : string :=
  match h !! key with
  | Some (v :: _) => v
  | _ => ""
  end.

Record URL : Type := mkURL {
  Scheme : string;
  Host : string;
  Path : string;
  RawQuery : string
}.

Record Cookie : Type := mkCookie {
  Name : string;
  Value : string
}.

(** An [io.Reader] that is read to its end: the bytes it yields, and the
    error that ends it when that is not [io.EOF]. *)
Record Reader : Type := mkReader {
  rd_data : list byte;
  rd_err : option error
}.

Record HttpRequest : Type := mkHttpRequest {
  Method : string;
  ReqURL : URL;
  ReqHeader : Header;
  ReqBody : option (list byte)
}.

Record Response : Type := mkResponse {
  Status : string;
  StatusCode : Z;
  RespHeader : Header;
  Body : Reader
}.

(** ** Retry policies *)

(** The interface [RetryOptions].  [Sleep] may panic. *)
Record RetryOptions : Type := mkRetryOptions {
  Repeat : option Response -> option error -> bool;
  Sleep : Z -> outcome bool
}.

Record DefaultRetryOptions : Type := mkDefaultRetryOptions {
  Count : Z;
  HttpErrors : list error;
  HttpStatusCodes : list Z
}.

Definition inStatusCode (d : DefaultRetryOptions) (statusCode : Z) : bool :=
  match HttpStatusCodes d with
  | [] => true
  | codes => existsb (fun code => Z.eqb statusCode code) codes
  end.

Definition inHttpError (d : DefaultRetryOptions) (err : option error) : bool :=
  match err with
  | None => false
  | Some e =>
      match HttpErrors d with
      | [] => true
      | errs => existsb (fun httpErr => errors_Is e httpErr) errs
      end
  end.

Definition DefaultRetryOptions_Repeat (d : DefaultRetryOptions)
    (response : option Response) (err : option error) : bool :=
  match response with
  | None => inHttpError d err
  | Some resp => inHttpError d err && inStatusCode d (StatusCode resp)
  end.

(** [time.Sleep] only takes time; the answer is what the engine sees. *)
Definition DefaultRetryOptions_Sleep (d : DefaultRetryOptions) (counter : Z) : outcome bool :=
  if (counter >? Count d)%Z then Ok false else Ok true.

Definition defaultRetryOptions (d : DefaultRetryOptions) : RetryOptions :=
  mkRetryOptions (DefaultRetryOptions_Repeat d) (DefaultRetryOptions_Sleep d).

Definition emptyOptions : RetryOptions :=
  mkRetryOptions (fun _ _ => false) (fun _ => Fault "not implemented").

(** ** Destination types and values *)

(** The result type [T] of a descriptor, as far as [checkType] and [any]
    tell types apart. *)
Inductive GoType : Type :=
| TBytes | TString | TInt | TBool
| TPtr (elem : GoType)
| TOther.

Inductive GoValue : Type :=
| VBytes (b : list byte)
| VString (s : string)
| VInt (z : Z)
| VBool (b : bool)
| VNilPtr
| VOther (repr : string).

(** [var t T] *)
Definition zeroValue (T : GoType) : GoValue :=
  match T with
  | TBytes => VBytes []
  | TString => VString ""
  | TInt => VInt 0
  | TBool => VBool false
  | TPtr _ => VNilPtr
  | TOther => VOther ""
  end.

(** ** strconv *)

Definition dquote : string := String (ascii_of_nat 34) EmptyString.

Definition int_min : Z := (- 2 ^ 63)%Z.
Definition int_max : Z := (2 ^ 63 - 1)%Z.

(** Go's [int] is 64 bits wide; [cnt++] wraps. *)
Definition wrapInt (z : Z) : Z := ((z + 2 ^ 63) mod 2 ^ 64 - 2 ^ 63)%Z.

Definition digitOf (c : ascii) : option Z :=
  let n := Z.of_nat (nat_of_ascii c) in
  if ((48 <=? n) && (n <=? 57))%Z then Some (n - 48)%Z else None.

Fixpoint parseDigits (s : string) (acc : Z) : option Z :=
  match s with
  | EmptyString => Some acc
  | String c rest =>
      match digitOf c with
      | Some d => parseDigits rest (10 * acc + d)%Z
      | None => None
      end
  end.

Definition numError (fn s why : string) : error :=
  WrapError 0 ("strconv." +:+ fn +:+ ": parsing " +:+ dquote +:+ s +:+ dquote +:+ ": " +:+ why)
            (NewError 0 why).

(** [strconv.Atoi]: an optional sign and decimal digits, within [int]. *)
Definition strconv_Atoi (s : string) : Z * option error :=
  let '(neg, digits) :=
    match s with
    | String "-" rest => (true, rest)
    | String "+" rest => (false, rest)
    | _ => (false, s)
    end in
  match digits with
  | EmptyString => (0%Z, Some (numError "Atoi" s "invalid syntax"))
  | _ =>
      match parseDigits digits 0 with
      | None => (0%Z, Some (numError "Atoi" s "invalid syntax"))
      | Some n =>
          let v := (if neg then - n else n)%Z in
          if (v <? int_min)%Z then (int_min, Some (numError "Atoi" s "value out of range"))
          else if (int_max <? v)%Z then (int_max, Some (numError "Atoi" s "value out of range"))
          else (v, None)
      end
  end.

Definition strconv_ParseBool (s : string) : bool * option error :=
  if bool_decide (s ∈ ["1"; "t"; "T"; "TRUE"; "true"; "True"]) then (true, None)
  else if bool_decide (s ∈ ["0"; "f"; "F"; "FALSE"; "false"; "False"]) then (false, None)
  else (false, Some (numError "ParseBool" s "invalid syntax")).

(** ** What goreq asks of other packages *)

Inductive DoResult : Type :=
| DoOk (resp : Response)
| DoErr (resp : option Response) (e : error).

Inductive RoundTripper : Type :=
| NoTransport
| HttpTransport (proxyURL : option URL)
| OtherTransport.

(** An [*http.Client]: its [Transport] field, and what [Do] answers to the
    request it is given on its n-th call (counted from 0). *)
Record Client : Type := mkClient {
  Transport : RoundTripper;
  Do : nat -> HttpRequest -> DoResult
}.

Class Externals : Type := {
  Payload : Type;
  url_Parse : string -> error + URL;
  url_String : URL -> string;
  url_ParseQuery : string -> Values;
  url_Encode : Values -> string;
  strings_TrimSpace : string -> string;
  json_Marshal : Payload -> error + list byte;
  (** [json.NewDecoder(rdr).Decode(&t)] for a zero [t] of the given type:
      the value left in [t], the error, and the bytes the decoder read. *)
  json_Decode : GoType -> Reader -> GoValue * option error * list byte;
  zstd_NewReader : Reader -> error + Reader;
  gzip_NewReader : Reader -> error + Reader;
  brotli_NewReader : Reader -> Reader;
  (** [resp.Cookies()] *)
  readSetCookies : Header -> list Cookie;
  (** the text [AddCookie] writes for one cookie *)
  cookie_String : Cookie -> string
}.

(** ** The store, events and the monad of effects *)

Abbreviation loc := positive.

Inductive Event : Type :=
| EvDo (req : HttpRequest)
| EvSleep (counter : Z).

Record World : Type := mkWorld {
  hdrs : gmap loc Header;
  urls : gmap loc URL;
  bufs : gmap loc (list byte);
  next : loc;
  trace : list Event
}.

Definition emptyWorld : World := mkWorld ∅ ∅ ∅ 1%positive [].

Inductive Res (A : Type) : Type :=
| Ret (a : A) (w : World)
| Panic (msg : string) (w : World)
| OutOfFuel (w : World).
Arguments Ret {A} a w.
Arguments Panic {A} msg w.
Arguments OutOfFuel {A} w.

Definition M (A : Type) : Type := World -> Res A.

Definition ret {A} (a : A) : M A := fun w => Ret a w.
Definition bind {A B} (m : M A) (k : A -> M B) : M B :=
  fun w =>
    match m w with
    | Ret a w' => k a w'
    | Panic msg w' => Panic msg w'
    | OutOfFuel w' => OutOfFuel w'
    end.
Definition panic {A} (msg : string) : M A := fun w => Panic msg w.
Definition outOfFuel {A} : M A := fun w => OutOfFuel w.
Definition lift {A} (o : outcome A) : M A :=
  match o with Ok a => ret a | Fault msg => panic msg end.

#[export] Instance M_ret : MRet M := @ret.
#[export] Instance M_bind : MBind M := fun A B k m => bind m k.

Definition worldOf {A} (r : Res A) : World :=
  match r with Ret _ w | Panic _ w | OutOfFuel w => w end.

Definition emit (ev : Event) : M unit :=
  fun w => Ret tt (mkWorld (hdrs w) (urls w) (bufs w) (next w) (trace w ++ [ev])%list).

Definition isDo (ev : Event) : bool :=
  match ev with EvDo _ => true | EvSleep _ => false end.

(** How many times the transport was invoked, and with which counters the
    policy was asked to sleep. *)
Definition transportCalls (w : World) : nat := length (filter isDo (trace w)).
Definition sleeps (w : World) : list Z :=
  omap (fun ev => match ev with EvSleep c => Some c | EvDo _ => None end) (trace w).

(** A new map and a new [url.URL]. *)
Definition allocHeader (h : Header) : M loc :=
  fun w => Ret (next w)
    (mkWorld (<[next w := h]> (hdrs w)) (urls w) (bufs w) (Pos.succ (next w)) (trace w)).
Definition allocURL (x : URL) : M loc :=
  fun w => Ret (next w)
    (mkWorld (hdrs w) (<[next w := x]> (urls w)) (bufs w) (Pos.succ (next w)) (trace w)).

(** Reading through a pointer that is nil or dangling panics. *)
Definition loadHeader (l : loc) : M Header :=
  fun w => match hdrs w !! l with Some h => Ret h w | None => Panic nilDeref w end.
Definition storeHeader (l : loc) (h : Header) : M unit :=
  fun w => Ret tt (mkWorld (<[l := h]> (hdrs w)) (urls w) (bufs w) (next w) (trace w)).
Definition loadURL (l : option loc) : M URL :=
  fun w => match l ≫= (fun l => urls w !! l) with
           | Some x => Ret x w
           | None => Panic nilDeref w
           end.
Definition storeURL (l : loc) (x : URL) : M unit :=
  fun w => Ret tt (mkWorld (hdrs w) (<[l := x]> (urls w)) (bufs w) (next w) (trace w)).
(** [b.Write(p)] on a [*bytes.Buffer] *)
Definition writeBuffer (l : loc) (p : list byte) : M unit :=
  fun w => Ret tt
    (mkWorld (hdrs w) (urls w) (<[l := (bufs w !!! l ++ p)%list]> (bufs w)) (next w) (trace w)).

(** ** net/http *)

Definition MethodGet : string := "GET".
Definition MethodPost : string := "POST".
Definition standardMethods : list string :=
  ["GET"; "POST"; "CONNECT"; "DELETE"; "OPTIONS"; "PATCH"; "TRACE"; "HEAD"; "PUT"].

(** [httpguts.IsTokenRune] on a byte *)
Definition isTokenByte (c : ascii) : bool :=
  let n := nat_of_ascii c in
  ((48 <=? n) && (n <=? 57) || (65 <=? n) && (n <=? 90) || (97 <=? n) && (n <=? 122))%nat
  || bool_decide (n ∈ [33; 35; 36; 37; 38; 39; 42; 43; 45; 46; 94; 95; 96; 124; 126]).

Definition validMethod (m : string) : bool :=
  negb (String.eqb m "") && forallb isTokenByte (list_ascii_of_string m).

Definition CR : string := String (ascii_of_nat 13) EmptyString.
Definition LF : string := String (ascii_of_nat 10) EmptyString.
Definition CRLF : string := CR +:+ LF.

(** [r.AddCookie(c)] *)
Definition AddCookie `{Externals} (req : HttpRequest) (c : Cookie) : HttpRequest :=
  let s := cookie_String c in
  let old := firstValue (ReqHeader req) "Cookie" in
  let new := if String.eqb old "" then s else old +:+ "; " +:+ s in
  mkHttpRequest (Method req) (ReqURL req) (<["Cookie" := [new]]> (ReqHeader req)) (ReqBody req).

(** [http.NewRequest(method, url, body)]: an empty method means GET, the
    method is checked, the address is parsed, the header map is new. *)
Definition http_NewRequest `{Externals} (method url : string) (body : option (list byte))
    : error + HttpRequest :=
  let method := if String.eqb method "" then MethodGet else method in
  if negb (validMethod method)
  then inl (errors_New ("net/http: invalid method " +:+ dquote +:+ method +:+ dquote))
  else match url_Parse url with
       | inl e => inl e
       | inr x => inr (mkHttpRequest method x ∅ body)
       end.

(** ** Multipart *)

(** A [Multipart]: its context, its [*multipart.Writer] (known by its
    boundary) and the buffer the writer fills. *)
Record Multipart : Type := mkMultipart {
  Ctx : option Context;
  wr : option string;
  mbody : option (list byte)
}.

(** [m.make()].  [wr.Close()] ends the body with the closing boundary and
    cannot fail on a [bytes.Buffer]; the deferred [Reset] empties the buffer
    after the bytes were taken.  A builder to which nothing was added has no
    writer. *)
Definition Multipart_make (m : Multipart) : outcome (string * list byte * Multipart) :=
  match wr m, mbody m with
  | Some boundary, Some b =>
      let closed := (b ++ list_byte_of_string (CRLF +:+ "--" +:+ boundary +:+ "--" +:+ CRLF))%list in
      Ok ("multipart/form-data; boundary=" +:+ boundary, closed, mkMultipart (Ctx m) (wr m) (Some []))
  | _, _ => Fault nilDeref
  end.

(** ** The request descriptor *)

Record Request : Type := mkRequest {
  ctx : Context;
  u : option loc;
  method : string;
  headers : option loc;
  data : option (list byte);
  dataReader : option Reader;
  client : option Client;
  proxy : string;
  body : list byte;
  multipart : option Multipart;
  resultType : GoType;
  isJson : bool;
  retBody : option loc;
  finalReq : option HttpRequest;
  retryOptions : RetryOptions;
  err : option error;
  lastResponse : option Response;
  cookie : list Cookie
}.

Definition set_ctx (r : Request) (x : Context) : Request :=
  mkRequest x (u r) (method r) (headers r) (data r) (dataReader r) (client r) (proxy r) (body r) (multipart r) (resultType r) (isJson r) (retBody r) (finalReq r) (retryOptions r) (err r) (lastResponse r) (cookie r).
Definition set_method (r : Request) (x : string) : Request :=
  mkRequest (ctx r) (u r) x (headers r) (data r) (dataReader r) (client r) (proxy r) (body r) (multipart r) (resultType r) (isJson r) (retBody r) (finalReq r) (retryOptions r) (err r) (lastResponse r) (cookie r).
Definition set_client (r : Request) (x : option Client) : Request :=
  mkRequest (ctx r) (u r) (method r) (headers r) (data r) (dataReader r) x (proxy r) (body r) (multipart r) (resultType r) (isJson r) (retBody r) (finalReq r) (retryOptions r) (err r) (lastResponse r) (cookie r).
Definition set_proxy (r : Request) (x : string) : Request :=
  mkRequest (ctx r) (u r) (method r) (headers r) (data r) (dataReader r) (client r) x (body r) (multipart r) (resultType r) (isJson r) (retBody r) (finalReq r) (retryOptions r) (err r) (lastResponse r) (cookie r).
Definition set_body (r : Request) (x : list byte) : Request :=
  mkRequest (ctx r) (u r) (method r) (headers r) (data r) (dataReader r) (client r) (proxy r) x (multipart r) (resultType r) (isJson r) (retBody r) (finalReq r) (retryOptions r) (err r) (lastResponse r) (cookie r).
Definition set_multipart (r : Request) (x : option Multipart) : Request :=
  mkRequest (ctx r) (u r) (method r) (headers r) (data r) (dataReader r) (client r) (proxy r) (body r) x (resultType r) (isJson r) (retBody r) (finalReq r) (retryOptions r) (err r) (lastResponse r) (cookie r).
Definition set_isJson (r : Request) (x : bool) : Request :=
  mkRequest (ctx r) (u r) (method r) (headers r) (data r) (dataReader r) (client r) (proxy r) (body r) (multipart r) (resultType r) x (retBody r) (finalReq r) (retryOptions r) (err r) (lastResponse r) (cookie r).
Definition set_retBody (r : Request) (x : option loc) : Request :=
  mkRequest (ctx r) (u r) (method r) (headers r) (data r) (dataReader r) (client r) (proxy r) (body r) (multipart r) (resultType r) (isJson r) x (finalReq r) (retryOptions r) (err r) (lastResponse r) (cookie r).
Definition set_finalReq (r : Request) (x : option HttpRequest) : Request :=
  mkRequest (ctx r) (u r) (method r) (headers r) (data r) (dataReader r) (client r) (proxy r) (body r) (multipart r) (resultType r) (isJson r) (retBody r) x (retryOptions r) (err r) (lastResponse r) (cookie r).
Definition set_retryOptions (r : Request) (x : RetryOptions) : Request :=
  mkRequest (ctx r) (u r) (method r) (headers r) (data r) (dataReader r) (client r) (proxy r) (body r) (multipart r) (resultType r) (isJson r) (retBody r) (finalReq r) x (err r) (lastResponse r) (cookie r).
Definition set_err (r : Request) (x : option error) : Request :=
  mkRequest (ctx r) (u r) (method r) (headers r) (data r) (dataReader r) (client r) (proxy r) (body r) (multipart r) (resultType r) (isJson r) (retBody r) (finalReq r) (retryOptions r) x (lastResponse r) (cookie r).
Definition set_lastResponse (r : Request) (x : option Response) : Request :=
  mkRequest (ctx r) (u r) (method r) (headers r) (data r) (dataReader r) (client r) (proxy r) (body r) (multipart r) (resultType r) (isJson r) (retBody r) (finalReq r) (retryOptions r) (err r) x (cookie r).
Definition set_cookie (r : Request) (x : list Cookie) : Request :=
  mkRequest (ctx r) (u r) (method r) (headers r) (data r) (dataReader r) (client r) (proxy r) (body r) (multipart r) (resultType r) (isJson r) (retBody r) (finalReq r) (retryOptions r) (err r) (lastResponse r) x.

(** [r.contextErr(err)] *)
Definition contextErr (r : Request) (e : option error) : Request :=
  match e with
  | None => r
  | Some cause => set_ctx r (cancelWithCause (ctx r) cause)
  end.

(** [r.ctx.Err() != nil], the guard of the configuration methods. *)
Definition cancelled (r : Request) : bool := bool_decide (is_Some (ctx_err (ctx r))).

Section Configuration.
Context `{Externals}.

(** [r.checkType(t)] for the zero value [t] of the result type. *)
Definition checkType (T : GoType) : bool :=
  match T with
  | TPtr TBytes | TBytes | TPtr TString | TString | TInt | TPtr TInt => false
  | _ => true
  end.

(** [New[T](ctx, link)].  [defaultClient] is [http.DefaultClient].  When the
    address does not parse, [r.u] is nil and the error is latched. *)
Definition New (defaultClient : Client) (T : GoType) (c : Context) (link : string) : M Request :=
  h ← allocHeader {[ "Accept-Encoding" := ["deflate,gzip,zstd,br"];
                     "User-Agent" := ["SomniSom-goreq/1.0"] ]};
  let r (ul : option loc) (e : option error) :=
    mkRequest c ul MethodGet (Some h) None None (Some defaultClient) "" [] None
              T (checkType T) None None emptyOptions e None [] in
  match url_Parse link with
  | inr x => l ← allocURL x; mret (r (Some l) None)
  | inl e => mret (contextErr (r None (Some e)) (Some e))
  end.

(** [r.Clone()]: a copy of the struct.  The copies through [finalReq],
    [retBody], [client] and [lastResponse] copy an object onto itself, for
    after [*rq = *r] both sides are one pointer; [dataReader] is
    dereferenced when [data] is set. *)
Definition Clone (r : Request) : outcome Request :=
  let rq := r in
  let rq := match finalReq r with
            | Some _ => rq
            | None => set_finalReq rq (Some (mkHttpRequest "" (mkURL "" "" "" "") ∅ None))
            end in
  match data r, dataReader r with
  | Some _, None => Fault nilDeref
  | _, _ => Ok rq
  end.

Definition Client_ (r : Request) (cl : option Client) : M Request :=
  if cancelled r then mret r else mret (set_client r cl).

Definition Path_ (r : Request) (path : string) : M Request :=
  if cancelled r then mret r else
  x ← loadURL (u r);
  match u r with
  | Some l => storeURL l (mkURL (Scheme x) (Host x) path (RawQuery x));; mret r
  | None => panic nilDeref
  end.

Definition Cookie_ (r : Request) (c : list Cookie) : M Request :=
  mret (set_cookie r c).

(** [q.Set(key, value)] and [q.Add(key, value)] of [url.Values] *)
Definition Values_Set (q : Values) (key value : string) : Values := <[key := [value]]> q.
Definition Values_Add (q : Values) (key value : string) : Values :=
  <[key := (q !!! key ++ [value])%list]> q.

(** The loop of [Params].  With one argument left the slice is never
    shortened ([attr = attr[0:]]) and the loop does not end: [None]. *)
Fixpoint paramsLoop (q : Values) (attr : list string) : option Values :=
  match attr with
  | [] => Some q
  | [_] => None
  | key :: value :: rest =>
      if negb (String.eqb (firstValue q key) "")
      then paramsLoop (Values_Set q key value) rest
      else paramsLoop (Values_Add q key value) rest
  end.

Definition Params (r : Request) (attr : list string) : M Request :=
  if cancelled r then mret r else
  x ← loadURL (u r);
  let q := url_ParseQuery (RawQuery x) in
  if negb (Z.of_nat (length attr) mod 2 =? 0)%Z then
    let e := errors_New "incompatible query parameter" in
    mret (contextErr (set_err r (Some e)) (Some e))
  else
    match paramsLoop q attr, u r with
    | Some q', Some l =>
        storeURL l (mkURL (Scheme x) (Host x) (Path x) (url_Encode q'));; mret r
    | Some _, None => panic nilDeref
    | None, _ => outOfFuel
    end.

(** The loop of [Headers] on the map the descriptor points to. *)
Fixpoint headersLoop (h : Header) (attr : list string) : Header :=
  match attr with
  | [] => h
  | [key] => <[key := (h !!! key ++ [""])%list]> h
  | key :: value :: rest => headersLoop (<[key := (h !!! key ++ [value])%list]> h) rest
  end.

(** Writing to a nil map panics; without arguments nothing is written. *)
Definition Headers (r : Request) (attr : list string) : M Request :=
  if cancelled r then mret r else
  match attr, headers r with
  | [], _ => mret r
  | _, None => panic "assignment to entry in nil map"
  | _, Some l => h ← loadHeader l; storeHeader l (headersLoop h attr);; mret r
  end.

Definition Method_ (r : Request) (m : string) : M Request :=
  if cancelled r then mret r else
  let r :=
    if negb (bool_decide (method r ∈ standardMethods)) then
      let e := errors_New "method incorrect" in
      contextErr (set_err r (Some e)) (Some e)
    else r in
  mret (set_method r m).

Definition BodyJson (r : Request) (dt : Payload) : M Request :=
  if cancelled r then mret r else
  let r := match json_Marshal dt with
           | inr b => set_err (set_body r b) None
           | inl e => set_err (set_body r []) (Some e)
           end in
  let r := contextErr r (err r) in
  r ← Headers r ["Content-Type"; "application/json"];
  mret (set_method r MethodPost).

Definition BodyMultipart (r : Request) (m : option Multipart) : M Request :=
  if cancelled r then mret r else
  mret (set_multipart (set_method r MethodPost) m).

Definition BodyRaw (r : Request) (raw : list byte) : M Request :=
  if cancelled r then mret r else
  mret (set_body (set_method r MethodPost) raw).

Definition Proxy (r : Request) (p : string) : M Request :=
  if cancelled r then mret r else
  let r := set_proxy r (strings_TrimSpace p) in
  if String.eqb (proxy r) "" then mret r else
  match url_Parse (proxy r) with
  | inl e => mret (set_err (contextErr r (Some e)) (Some e))
  | inr proxyUrl =>
      match client r with
      | None => panic nilDeref
      | Some cl =>
          match Transport cl with
          | NoTransport | HttpTransport _ =>
              mret (set_client r (Some (mkClient (HttpTransport (Some proxyUrl)) (Do cl))))
          | OtherTransport => mret r
          end
      end
  end.

Definition ToBody (r : Request) (b : option loc) : M Request :=
  if cancelled r then mret r else
  match b with
  | None => mret r
  | Some _ => mret (set_retBody r b)
  end.

Definition Retry (r : Request) (options : RetryOptions) : M Request :=
  if cancelled r then mret r else
  mret (set_retryOptions r options).

Definition GetLastResponse (r : Request) : option Response := lastResponse r.

End Configuration.

Section Execution.
Context `{Externals}.

(** [r.any(t, dt)], by the dynamic type of [t]; [cur] is what a pointer [t]
    points to.  The assertions [t.( *int)] and [t.( *bool)] under
    [case int] and [case bool] fail on a non-pointer. *)
Definition any (dyn : GoType) (cur : GoValue) (dt : list byte) : outcome (GoValue * option error) :=
  match dyn with
  | TPtr TBytes => Ok (VBytes dt, None)
  | TPtr TString => Ok (VString (string_of_list_byte dt), None)
  | TInt => Fault "interface conversion: interface {} is int, not *int"
  | TBool => Fault "interface conversion: interface {} is bool, not *bool"
  | TPtr TBool =>
      let '(b, e) := strconv_ParseBool (string_of_list_byte dt) in Ok (VBool b, e)
  | _ => Ok (cur, None)
  end.

(** [http.NewRequest(r.method, r.u.String(), body)] stored into
    [r.finalReq, r.err]. *)
Definition newFinalReq (r : Request) (b : option (list byte)) : M Request :=
  x ← loadURL (u r);
  match http_NewRequest (method r) (url_String x) b with
  | inr req => mret (set_err (set_finalReq r (Some req)) None)
  | inl e => mret (set_err (set_finalReq r None) (Some e))
  end.

(** [if r.finalReq.Method == http.MethodGet { r.finalReq.Method = http.MethodPost }]:
    reading the method through a nil [finalReq] panics; the method GET of
    the request of an earlier use is overwritten with POST.  The write is
    to the old request: it stays when [makeRequest] returns before
    [newFinalReq] replaces the request.  The descriptor holds its request
    by value: the write is followed in the descriptor that makes it. *)
Definition fixMethod (r : Request) : M Request :=
  match finalReq r with
  | None => panic nilDeref
  | Some req =>
      if String.eqb (Method req) MethodGet
      then mret (set_finalReq r (Some (mkHttpRequest MethodPost (ReqURL req)
                                                     (ReqHeader req) (ReqBody req))))
      else mret r
  end.

(** The first part of [makeRequest]: [r.finalReq, r.err] are set from the
    body, else from the multipart builder, else without body.  The second
    component is the error of the early [return] of the multipart branch. *)
Definition buildFinalReq (r : Request) : M (Request * option error) :=
  if (0 <? length (body r))%nat then
    r ← fixMethod r;
    r ← newFinalReq r (Some (body r));
    mret (r, None)
  else
    match multipart r with
    | Some m =>
        r ← fixMethod r;
        '(ctt, dt, m') ← lift (Multipart_make m);
        let r := set_multipart r (Some m') in
        match Ctx m' with
        | None => panic nilDeref
        | Some c =>
            match ctx_err c with
            | Some e => mret (contextErr r (Some e), Some e)
            | None =>
                r ← newFinalReq r (Some dt);
                match finalReq r with
                | None => panic nilDeref
                | Some req =>
                    let req := mkHttpRequest (Method req) (ReqURL req)
                                 (<["Content-Type" := [ctt]]> (ReqHeader req)) (ReqBody req) in
                    mret (set_finalReq r (Some req), None)
                end
            end
        end
    | None =>
        r ← newFinalReq r None;
        mret (r, None)
    end.

(** Reading a nil map gives no entries. *)
Definition readHeaders (l : option loc) : M Header :=
  fun w => Ret (default ∅ (l ≫= (fun l => hdrs w !! l))) w.

(** [r.makeRequest()].  The entries of [r.headers] replace those of the new
    request that have the same key. *)
Definition makeRequest (r : Request) : M (Request * option error) :=
  '(r, early) ← buildFinalReq r;
  match early with
  | Some e => mret (r, Some e)
  | None =>
      match err r with
      | Some e => mret (contextErr r (Some e), Some e)
      | None =>
          match finalReq r with
          | None => panic nilDeref
          | Some req =>
              let req := fold_left AddCookie (cookie r) req in
              h ← readHeaders (headers r);
              let req := mkHttpRequest (Method req) (ReqURL req) (h ∪ ReqHeader req) (ReqBody req) in
              mret (set_finalReq r (Some req), None)
          end
      end
  end.

(** [r.request()]: one call of [r.client.Do(r.finalReq)]. *)
Definition request (r : Request) : M (option Response * option error) :=
  match client r, finalReq r with
  | Some cl, Some req =>
      fun w =>
        match Do cl (transportCalls w) req with
        | DoOk resp => (emit (EvDo req);; mret (Some resp, None)) w
        | DoErr _ e => (emit (EvDo req);; mret (None, Some e)) w
        end
  | _, _ => panic nilDeref
  end.

(** [r.retryOptions.Sleep(cnt)], recorded. *)
Definition policySleep (r : Request) (cnt : Z) : M bool :=
  emit (EvSleep cnt);; lift (Sleep (retryOptions r) cnt).

(** The loop [for resp, r.err = r.request(); r.retryOptions.Repeat(resp, r.err); { ... }]
    after its init statement has run.  The loop has no post statement and
    its body calls nothing but [Sleep]: [resp] and [r.err] stay what the
    init statement made them.  [true] when the body returned from [Fetch]. *)
Fixpoint retryLoop (fuel : nat) (r : Request) (resp : option Response) (cnt : Z) : M bool :=
  match fuel with
  | O => outOfFuel
  | S fuel =>
      if Repeat (retryOptions r) resp (err r) then
        if bool_decide (is_Some (err r)) || bool_decide (resp = None :> option Response) then
          mret true
        else
          again ← policySleep r cnt;
          if negb again then mret false
          else retryLoop fuel r resp (wrapInt (cnt + 1))
      else mret false
  end.

(** [io.TeeReader(reader, r.retBody)]: the bytes read are written to the
    buffer as well. *)
Definition tee (r : Request) (p : list byte) : M unit :=
  match retBody r, p with
  | Some l, _ :: _ => writeBuffer l p
  | _, _ => mret tt
  end.

(** The reader chosen by [Content-Encoding]. *)
Definition decompress (resp : Response) : error + Reader :=
  let enc := firstValue (RespHeader resp) "Content-Encoding" in
  if String.eqb enc "zstd" then zstd_NewReader (Body resp)
  else if String.eqb enc "br" then inr (brotli_NewReader (Body resp))
  else if String.eqb enc "gzip" then gzip_NewReader (Body resp)
  else inr (Body resp).

Definition badStatus (resp : Response) : bool :=
  ((StatusCode resp <? 200) || (300 <=? StatusCode resp))%Z.

(** The status check that ends both decoding paths: [r.err] is the error
    of the decoding. *)
Definition checkStatus (r : Request) (resp : Response) (t : GoValue)
    : M (Request * GoValue * option error) :=
  if badStatus resp then
    let e :=
      match err r with
      | Some de =>
          errors_New (Status resp +:+ ": status code incorrect, error decode body: "
                      +:+ Error de +:+ LF)
      | None => errors_New (Status resp +:+ ": status code incorrect")
      end in
    let r := set_err r (Some e) in
    mret (contextErr r (Some e), t, Some e)
  else mret (r, t, err r).

(** [Fetch] from [r.lastResponse = resp] on: decompression, tee, cookies,
    decoding and the status check.  [t] is the zero value [Fetch] declared. *)
Definition decodeResponse (r : Request) (resp : Response)
    : M (Request * GoValue * option error) :=
  let t := zeroValue (resultType r) in
  let r := set_lastResponse r (Some resp) in
  match err r with
  | Some e => mret (contextErr r (Some e), t, Some e)
  | None =>
  match decompress resp with
  | inl e => let r := set_err r (Some e) in mret (contextErr r (Some e), t, Some e)
  | inr reader =>
  let r := set_cookie r (readSetCookies (RespHeader resp)) in
  if isJson r then
    let '(v, e, p) := json_Decode (resultType r) reader in
    tee r p;;
    checkStatus (set_err r e) resp v
  else
    tee r (rd_data reader);;
    let r := set_err r (rd_err reader) in
    match err r with
    | Some e => mret (contextErr r (Some e), t, Some e)
    | None =>
        '(v, e) ← lift (any (TPtr (resultType r)) t (rd_data reader));
        let r := set_err r e in
        match err r with
        | Some e => mret (contextErr r (Some e), v, Some e)
        | None => checkStatus r resp v
        end
    end
  end end.

(** [r.Fetch()].  The result is the descriptor as [Fetch] leaves it, the
    value and the error returned.  [fuel] bounds the turns of the retry
    loop. *)
Definition Fetch (fuel : nat) (r : Request) : M (Request * GoValue * option error) :=
  let t := zeroValue (resultType r) in
  match err r with
  | Some e => mret (r, t, Some e)
  | None =>
  match ctx_err (ctx r) with
  | Some e => mret (r, t, Some e)
  | None =>
  '(r, e) ← makeRequest r;
  match e with
  | Some e => mret (contextErr r (Some e), t, Some e)
  | None =>
  '(resp, e) ← request r;
  let r := set_err r e in
  returned ← retryLoop fuel r resp 1;
  if returned : bool then mret (contextErr r (err r), t, err r) else
  match resp with
  | None => mret (r, t, err r)
  | Some resp => decodeResponse r resp
  end end end end.

End Execution.

(** ** The multipart builder and [Dump] *)

(** What the builder and [Dump] ask of other packages: reading a file, the
    header lines (with the empty line that ends them) that
    [CreateFormFile] and [WriteField] put after the boundary line of a
    part, and [httputil.DumpRequest]. *)
Class Collaborators : Type := {
  os_ReadFile : string -> error + list byte;
  formFileHeader : string -> string -> list byte;
  formFieldHeader : string -> list byte;
  httputil_DumpRequest : HttpRequest -> error + list byte
}.

Section Builders.
Context `{Externals} `{Collaborators}.

(** [m.initBody()].  [boundary] is the boundary [multipart.NewWriter]
    draws at random. *)
Definition initBody (boundary : string) (m : Multipart) : Multipart :=
  let m := match mbody m, wr m with
           | None, None => mkMultipart (Ctx m) (Some boundary) (Some [])
           | _, _ => m
           end in
  match Ctx m with
  | None => mkMultipart (Some context_Background) (wr m) (mbody m)
  | Some _ => m
  end.

(** [m.contextErr(err)] *)
Definition Multipart_contextErr (m : Multipart) (e : option error) : outcome Multipart :=
  match e with
  | None => Ok m
  | Some cause =>
      match Ctx m with
      | None => Fault "cannot create context from nil parent"
      | Some c => Ok (mkMultipart (Some (cancelWithCause c cause)) (wr m) (mbody m))
      end
  end.

(** [m.wr.CreatePart(header)] and the [Write] of the data: the boundary
    line, after a line break when a part came before (the buffer is empty
    exactly when none did), the header and the data.  Writing to a
    [bytes.Buffer] cannot fail. *)
Definition writePart (m : Multipart) (header data : list byte) : outcome Multipart :=
  match wr m, mbody m with
  | Some boundary, Some b =>
      let line := match b with
                  | [] => "--" +:+ boundary +:+ CRLF
                  | _ :: _ => CRLF +:+ "--" +:+ boundary +:+ CRLF
                  end in
      Ok (mkMultipart (Ctx m) (wr m)
            (Some (b ++ list_byte_of_string line ++ header ++ data)%list))
  | _, _ => Fault nilDeref
  end.

Definition AddFileData (boundary : string) (m : Multipart) (fieldName filename : string)
    (dt : list byte) : outcome Multipart :=
  writePart (initBody boundary m) (formFileHeader fieldName filename) dt.

Definition AddFile (boundary : string) (m : Multipart) (fieldName filename : string)
    : outcome Multipart :=
  let m := initBody boundary m in
  match os_ReadFile filename with
  | inl e => Multipart_contextErr m (Some e)
  | inr dt => AddFileData boundary m fieldName filename dt
  end.

Definition Param (boundary : string) (m : Multipart) (fieldName s : string)
    : outcome Multipart :=
  writePart (initBody boundary m) (formFieldHeader fieldName) (list_byte_of_string s).

(** [r.Dump()]: the bytes and the error returned.  [req.Header = r.headers]
    puts the map of the descriptor in place of the header of the request. *)
Definition Dump (r : Request) : M (option (list byte) * option error) :=
  match ctx_err (ctx r) with
  | Some e => mret (None, Some e)
  | None =>
      x ← loadURL (u r);
      let b := if (0 <? length (body r))%nat then Some (body r) else None in
      match http_NewRequest (method r) (url_String x) b with
      | inl e => mret (None, Some e)
      | inr req =>
          h ← readHeaders (headers r);
          match httputil_DumpRequest
                  (mkHttpRequest (Method req) (ReqURL req) h (ReqBody req)) with
          | inl e => mret (None, Some e)
          | inr text => mret (Some text, None)
          end
      end
  end.

End Builders.

(** ** A plain instance of the capabilities

    Enough of net/url, encoding/json and the decompressors to run the
    engine on closed inputs: addresses and queries without characters that
    need escaping, JSON booleans, bodies that are not compressed. *)
Module Plain.

(** [strings.Cut(s, sep)] for a one-byte separator *)
Fixpoint cut (sep : ascii) (s : string) : string * string * bool :=
  match s with
  | EmptyString => ("", "", false)
  | String c rest =>
      if Ascii.eqb c sep then ("", rest, true)
      else let '(before, after, found) := cut sep rest in (String c before, after, found)
  end.

Fixpoint split (sep : ascii) (s : string) (cur : string) : list string :=
  match s with
  | EmptyString => [cur]
  | String c rest =>
      if Ascii.eqb c sep then cur :: split sep rest "" else split sep rest (cur +:+ String c "")
  end.

Definition parse (s : string) : error + URL :=
  match s with
  | String ":" _ =>
      inl (WrapError 0 ("parse " +:+ dquote +:+ s +:+ dquote +:+ ": missing protocol scheme")
                     (NewError 0 "missing protocol scheme"))
  | _ => let '(base, query, _) := cut "?" s in inr (mkURL "" "" base query)
  end.

Definition render (x : URL) : string :=
  if String.eqb (RawQuery x) "" then Path x else Path x +:+ "?" +:+ RawQuery x.

Definition parseQuery (query : string) : Values :=
  fold_left
    (fun (m : Values) part =>
       if String.eqb part "" then m
       else let '(key, value, _) := cut "=" part in <[key := (m !!! key ++ [value])%list]> m)
    (split "&" query "") ∅.

Fixpoint insertKey (k : string) (ks : list string) : list string :=
  match ks with
  | [] => [k]
  | k' :: rest => if String.leb k k' then k :: ks else k' :: insertKey k rest
  end.

Definition sortedKeys (v : Values) : list string :=
  foldr insertKey [] (map fst (map_to_list v)).

Definition encode (v : Values) : string :=
  let pairs := flat_map (fun k => map (fun x => k +:+ "=" +:+ x) (v !!! k)) (sortedKeys v) in
  String.concat "&" pairs.

Fixpoint trimLeft (s : string) : string :=
  match s with
  | String " " rest => trimLeft rest
  | _ => s
  end.

Definition trimSpace (s : string) : string :=
  String.rev (trimLeft (String.rev (trimLeft s))).

Definition eof : error := NewError 1 "EOF".
Definition unexpectedEOF : error := NewError 2 "unexpected EOF".
Definition gzipErrHeader : error := NewError 3 "gzip: invalid header".

(** The decoder knows the JSON booleans; any other text is a syntax error
    for a boolean and is kept as it is for the other types. *)
Definition decode (T : GoType) (rd : Reader) : GoValue * option error * list byte :=
  let text := string_of_list_byte (rd_data rd) in
  match rd_data rd, rd_err rd with
  | [], None => (zeroValue T, Some eof, [])
  | [], Some e => (zeroValue T, Some e, [])
  | _, _ =>
      match T with
      | TBool =>
          if String.eqb text "true" then (VBool true, None, rd_data rd)
          else if String.eqb text "false" then (VBool false, None, rd_data rd)
          else (VBool false, Some (NewError 0 "invalid character looking for beginning of value"),
                rd_data rd)
      | _ => (VOther text, None, rd_data rd)
      end
  end.

(** [gzip.NewReader] reads the ten bytes of the header and checks the
    first three; what follows is taken as stored. *)
Definition gzipReader (rd : Reader) : error + Reader :=
  match rd_data rd with
  | [] => inl (default eof (rd_err rd))
  | b1 :: b2 :: b3 :: _ :: _ :: _ :: _ :: _ :: _ :: _ :: rest =>
      if bool_decide (Byte.to_nat b1 = 31 ∧ Byte.to_nat b2 = 139 ∧ Byte.to_nat b3 = 8)
      then inr (mkReader rest (rd_err rd))
      else inl gzipErrHeader
  | _ => inl (default unexpectedEOF (rd_err rd))
  end.

Definition setCookies (h : Header) : list Cookie :=
  map (fun line => let '(n, v, _) := cut "=" line in mkCookie n v) (h !!! "Set-Cookie").

#[export] Instance externals : Externals := {|
  Payload := string;
  url_Parse := parse;
  url_String := render;
  url_ParseQuery := parseQuery;
  url_Encode := encode;
  strings_TrimSpace := trimSpace;
  json_Marshal := fun p => inr (list_byte_of_string p);
  json_Decode := decode;
  zstd_NewReader := fun rd => inr rd;
  gzip_NewReader := gzipReader;
  brotli_NewReader := fun rd => rd;
  readSetCookies := setCookies;
  cookie_String := fun c => Name c +:+ "=" +:+ Value c
|}.

(** A transport that answers every request with one response. *)
Definition always (resp : Response) : Client :=
  mkClient NoTransport (fun _ _ => DoOk resp).

Definition response (code : Z) (status : string) (text : string) : Response :=
  mkResponse status code ∅ (mkReader (list_byte_of_string text) None).

End Plain.

(** ** Closed inputs *)
Module Scenario.
Import Plain.

Definition link : string := "https://example.test/get".
Definition hello : list byte := list_byte_of_string "hello".

(** A policy that always asks for another attempt and lets [n] of them
    through: [Sleep] answers true up to the counter [n]. *)
Definition retryUpTo (n : Z) : RetryOptions :=
  mkRetryOptions (fun _ _ => true) (fun counter => Ok (counter <=? n)%Z).

Definition unavailable : Response := response 503 "503 Service Unavailable" "busy".

(** A descriptor with [retryUpTo 2] against a transport that always
    answers 503, fetched. *)
Definition retried : M (Request * GoValue * option error) :=
  r ← New (always unavailable) TString context_Background link;
  r ← Retry r (retryUpTo 2);
  Fetch 10 r.

(** A descriptor with a latched configuration error (an odd number of
    arguments of [Params]). *)
Definition broken : M Request :=
  r ← New (always unavailable) TString context_Background link;
  Params r ["a"].

Definition session : list Cookie := [mkCookie "sid" "1"].

(** [base := New(...); c := base.Clone(); c.Headers("X-Test", "1")]; the
    result is the pair of the original and the clone. *)
Definition cloned : M (Request * Request) :=
  base ← New (always unavailable) TString context_Background link;
  c ← lift (Clone base);
  c ← Headers c ["X-Test"; "1"];
  mret (base, c).

(** [New[string](ctx, link).BodyRaw([]byte("hello")).Fetch()] *)
Definition posted : M (Request * GoValue * option error) :=
  r ← New (always (response 200 "200 OK" "ok")) TString context_Background link;
  r ← BodyRaw r hello;
  Fetch 1 r.

(** The same on a clone, whose [finalReq] is not nil. *)
Definition postedClone : M (Request * GoValue * option error) :=
  r ← New (always (response 200 "200 OK" "ok")) TString context_Background link;
  r ← lift (Clone r);
  r ← BodyRaw r hello;
  Fetch 1 r.

(** [New[T](ctx, link).Fetch()] against a transport that answers [resp]. *)
Definition fetched (T : GoType) (resp : Response) : M (Request * GoValue * option error) :=
  r ← New (always resp) T context_Background link;
  Fetch 1 r.

Definition truncated : Response :=
  mkResponse "500 Internal Server Error" 500 ∅
             (mkReader (list_byte_of_string "par") (Some unexpectedEOF)).

Definition bogus : M Request :=
  r ← New (always unavailable) TString context_Background link;
  Method_ r "BOGUS".

Definition bogusThenGet : M Request :=
  r ← bogus;
  Method_ r "GET".

Definition onlyCodes : DefaultRetryOptions := mkDefaultRetryOptions 3 [] [500%Z].

(** [New(ctx, "https://example.test/get?a=1&a=3").Params("a", "2")] *)
Definition twoValues : M Request :=
  r ← New (always unavailable) TString context_Background (link +:+ "?a=1&a=3");
  Params r ["a"; "2"].

(** The values a key has in the query of a descriptor. *)
Definition queryValues (r : Request) (w : World) (key : string) : option (list string) :=
  x ← (u r ≫= fun l => urls w !! l); parseQuery (RawQuery x) !! key.

(** What [New] makes of [link] in the empty world. *)
Definition base : Request :=
  mkRequest context_Background (Some 2%positive) "GET" (Some 1%positive) None None
            (Some (always unavailable)) "" [] None TString false None None emptyOptions
            None None [].
Definition world0 : World :=
  mkWorld {[ 1%positive := {[ "Accept-Encoding" := ["deflate,gzip,zstd,br"];
                              "User-Agent" := ["SomniSom-goreq/1.0"] ]} ]}
          {[ 2%positive := mkURL "" "" link "" ]} ∅ 3%positive [].

Definition brokenFetched : M (Request * GoValue * option error) :=
  r ← broken;
  Fetch 1 r.

(** [base] after [makeRequest]. *)
Definition madeRequest : Request :=
  match makeRequest base world0 with Ret (r, _) _ => r | _ => base end.
Definition madeWorld : World := worldOf (makeRequest base world0).

(** A 502 that announces gzip over a body that is not gzip. *)
Definition garbled : Response :=
  mkResponse "502 Bad Gateway" 502 {[ "Content-Encoding" := ["gzip"] ]}
             (mkReader (list_byte_of_string "not gzipped") None).

(** [base] against a transport that answers [resp], and what [makeRequest]
    makes of it. *)
Definition against (resp : Response) : Request := set_client base (Some (always resp)).
Definition madeAgainst (resp : Response) : Request :=
  match makeRequest (against resp) world0 with Ret (r, _) _ => r | _ => against resp end.

End Scenario.

(** ** Notions used in the statements *)

(** The values of a header of the descriptor, read through its map. *)
Definition headerValues (r : Request) (w : World) (key : string) : option (list string) :=
  h ← (headers r ≫= fun l => hdrs w !! l); h !! key.

(** The world in which the address at [l] has the query [q]. *)
Definition withQuery `{Externals} (w : World) (l : loc) (x : URL) (q : Values) : World :=
  mkWorld (hdrs w) (<[l := mkURL (Scheme x) (Host x) (Path x) (url_Encode q)]> (urls w))
          (bufs w) (next w) (trace w).

(** The policy lets [n] sleeps through and refuses the next one, counted
    from 1 as [Fetch] counts. *)
Definition stopsAfter (pol : RetryOptions) (n : nat) : Prop :=
  (∀ k : nat, (k < n)%nat → Sleep pol (1 + Z.of_nat k) = Ok true) ∧
  Sleep pol (1 + Z.of_nat n) = Ok false.

(** A computation that leaves the trace as it is, always ends, and can
    only panic on a nil pointer. *)
Definition quiet {A} (m : M A) : Prop :=
  ∀ w, trace (worldOf (m w)) = trace w ∧
       (∀ msg w', m w = Panic msg w' → msg = nilDeref) ∧
       (∀ w', m w ≠ OutOfFuel w').

(** The retry loop of a policy comes to its end within [fuel] turns on the
    response [resp]: [Repeat] declines, or [Sleep] refuses after [n] sleeps
    (the counter stays within [int]). *)
Definition endsWithin (pol : RetryOptions) (resp : Response) (fuel : nat) : Prop :=
  ((0 < fuel)%nat ∧ Repeat pol (Some resp) None = false) ∨
  ∃ n : nat, stopsAfter pol n ∧ (n < fuel)%nat ∧ (Z.of_nat n < int_max)%Z.

Definition addEvent (w : World) (ev : Event) : World :=
  mkWorld (hdrs w) (urls w) (bufs w) (next w) (trace w ++ [ev])%list.


(** The world in which the header map at [l] is [h]. *)
Definition withHeaders (w : World) (l : loc) (h : Header) : World :=
  mkWorld (<[l := h]> (hdrs w)) (urls w) (bufs w) (next w) (trace w).

(** The address a descriptor points to. *)
Definition addressOf (r : Request) (w : World) : option URL :=
  u r ≫= fun l => urls w !! l.

(** What the path without JSON leaves in the result: the bytes, the text,
    and for every other type the zero value. *)
Definition plainValue (T : GoType) (dt : list byte) : GoValue :=
  match T with
  | TBytes => VBytes dt
  | TString => VString (string_of_list_byte dt)
  | _ => zeroValue T
  end.

(** The pair [request] makes of the answer of the transport. *)
Definition answerOf (d : DoResult) : option Response * option error :=
  match d with
  | DoOk resp => (Some resp, None)
  | DoErr _ e => (None, Some e)
  end.

(** The error of the configuration that [Params] latches. *)
Definition oddParams : error := errors_New "incompatible query parameter".

(** ** More closed inputs *)
Module Fixture.
Import Plain Scenario.

Definition noSuchFile (name : string) : error :=
  WrapError 0 ("open " +:+ name +:+ ": no such file or directory")
            (NewError 4 "no such file or directory").

(** One file, [go.mod], can be read; the header lines are those of
    mime/multipart for names without quotes. *)
#[export] Instance collaborators : Collaborators := {|
  os_ReadFile := fun name =>
    if String.eqb name "go.mod" then inr (list_byte_of_string "module example")
    else inl (noSuchFile name);
  formFileHeader := fun field name =>
    list_byte_of_string
      ("Content-Disposition: form-data; name=" +:+ dquote +:+ field +:+ dquote
       +:+ "; filename=" +:+ dquote +:+ name +:+ dquote +:+ CRLF
       +:+ "Content-Type: application/octet-stream" +:+ CRLF +:+ CRLF);
  formFieldHeader := fun field =>
    list_byte_of_string
      ("Content-Disposition: form-data; name=" +:+ dquote +:+ field +:+ dquote
       +:+ CRLF +:+ CRLF);
  httputil_DumpRequest := fun req =>
    inr (list_byte_of_string (Method req +:+ " " +:+ render (ReqURL req) +:+ " HTTP/1.1" +:+ CRLF))
|}.

(** [base] with the error of an odd [Params] latched. *)
Definition failed : Request := contextErr (set_err base (Some oddParams)) (Some oddParams).

(** A clone of [base]: its [finalReq] is allocated. *)
Definition copy : Request :=
  set_finalReq base (Some (mkHttpRequest "" (mkURL "" "" "" "") ∅ None)).

Definition defaultHeaders : Header :=
  {[ "Accept-Encoding" := ["deflate,gzip,zstd,br"]; "User-Agent" := ["SomniSom-goreq/1.0"] ]}.

Definition address : URL := mkURL "" "" link "".

(** [base] with a policy of two retries, and what [makeRequest] makes of it. *)
Definition retrying : Request := set_retryOptions base (retryUpTo 2).
Definition retryingMade : Request :=
  match makeRequest retrying world0 with Ret (r, _) _ => r | _ => retrying end.

(** The wire request of [base]. *)
Definition wire : HttpRequest := mkHttpRequest "GET" address defaultHeaders None.

End Fixture.

(** ** Inputs of the further properties *)
Module Cases.
Import Plain Scenario Fixture.

(** The plain capabilities with a marshaller that refuses channels. *)
Definition unsupported : error := NewError 6 "json: unsupported type: chan int".
Definition strict : Externals := {|
  Payload := string;
  url_Parse := parse;
  url_String := render;
  url_ParseQuery := parseQuery;
  url_Encode := encode;
  strings_TrimSpace := trimSpace;
  json_Marshal := fun p => if String.eqb p "chan" then inl unsupported
                           else inr (list_byte_of_string p);
  json_Decode := decode;
  zstd_NewReader := fun rd => inr rd;
  gzip_NewReader := gzipReader;
  brotli_NewReader := fun rd => rd;
  readSetCookies := setCookies;
  cookie_String := fun c => Name c +:+ "=" +:+ Value c
|}.

(** The error of [Plain.parse] on the link [:bad]. *)
Definition noScheme : error :=
  WrapError 0 ("parse " +:+ dquote +:+ ":bad" +:+ dquote +:+ ": missing protocol scheme")
            (NewError 0 "missing protocol scheme").

Definition refused : error := NewError 5 "connection refused".
Definition failing : Client := mkClient NoTransport (fun _ _ => DoErr None refused).

Definition ok (text : string) : Response := response 200 "200 OK" text.

(** [base] against other transports, with other result types and
    policies. *)
Definition greeting : Request := set_client base (Some (always (ok "hello"))).
Definition unreachable : Request := set_client base (Some failing).
Definition flag : Request :=
  mkRequest context_Background (Some 2%positive) "GET" (Some 1%positive) None None
            (Some (always (ok "true"))) "" [] None TBool true None None emptyOptions
            None None [].
Definition cautious : Request := set_retryOptions base (defaultRetryOptions onlyCodes).
Definition forever : RetryOptions := mkRetryOptions (fun _ _ => true) (fun _ => Ok true).
Definition stubborn : Request := set_retryOptions base forever.

(** What [makeRequest] makes of a descriptor in [world0]. *)
Definition made (r : Request) : Request :=
  match makeRequest r world0 with Ret (r', _) _ => r' | _ => r end.

Definition deflated : Response :=
  mkResponse "200 OK" 200 {[ "Content-Encoding" := ["deflate"] ]}
             (mkReader (list_byte_of_string "raw") None).

(** A builder after [AddFile] of a file that is not there. *)
Definition unread : Multipart :=
  mkMultipart (Some (mkContext (Some context_Canceled) (Some (noSuchFile "missing.txt"))))
              (Some "b") (Some []).

(** A clone of [base] with a builder to which nothing was added. *)
Definition emptyUpload : Request := set_multipart copy (Some (mkMultipart None None None)).

(** The descriptor after a first [Fetch], which left the wire request of
    [base] in it, with the builder [unread] set. *)
Definition reupload : Request := set_multipart (set_finalReq base (Some wire)) (Some unread).

End Cases.

(** * Properties *)

(** ** The default retry policy *)





(** ** Query parameters *)

Ltac unfold_monad :=
  unfold mbind, M_bind, bind, mret, M_ret, ret, panic, outOfFuel in *.

Section ParamsProperties.
Context `{Externals}.

Lemma Params_pair (r : Request) (w : World) (l : loc) (x : URL) (key value : string) :
  cancelled r = false → u r = Some l → urls w !! l = Some x →
  Params r [key; value] w =
  Ret r (withQuery w l x
           (if negb (String.eqb (firstValue (url_ParseQuery (RawQuery x)) key) "")
            then Values_Set (url_ParseQuery (RawQuery x)) key value
            else Values_Add (url_ParseQuery (RawQuery x)) key value)).
Proof.
  intros Hc Hu Hx. unfold Params, loadURL, storeURL, withQuery.
  rewrite Hc, Hu. unfold_monad. cbn. rewrite Hx. cbn.
  change (Z.of_nat 2 `mod` 2 =? 0)%Z with true. cbn [negb].
  by destruct (negb _).
Qed.

(** C9, as the code has it: a key whose first value in the query is not
    empty gets the new value in place of all its values; for any other key
    (absent, or with an empty first value) the pair is appended.  So
    [Params(key, v1)] and then [Params(key, v2)], for a key the query did not
    have and a [v1] that is not empty, leave the one entry [key=v2]. *)
Theorem C9_Params_replaces_by_first_value
    (r : Request) (w : World) (l : loc) (x : URL) (key value : string) :
  cancelled r = false → u r = Some l → urls w !! l = Some x →
  let q := url_ParseQuery (RawQuery x) in
  (firstValue q key ≠ "" →
     Params r [key; value] w = Ret r (withQuery w l x (<[key := [value]]> q))) ∧
  (firstValue q key = "" →
     Params r [key; value] w =
     Ret r (withQuery w l x (<[key := (q !!! key ++ [value])%list]> q))) ∧
  (∀ value2 : string,
     q !! key = None → value ≠ "" →
     url_ParseQuery (url_Encode (<[key := [value]]> q)) = <[key := [value]]> q →
     (r' ← Params r [key; value]; Params r' [key; value2]) w =
     Ret r (withQuery w l x (<[key := [value2]]> q))).
Proof.
  intros Hc Hu Hx q. split; [|split].
  - intros Hne. rewrite (Params_pair r w l x) by done. fold q.
    apply String.eqb_neq in Hne. by rewrite Hne.
  - intros He. rewrite (Params_pair r w l x) by done. fold q.
    apply String.eqb_eq in He. by rewrite He.
  - intros value2 Hnone Hv Hround.
    unfold mbind, M_bind, bind. rewrite (Params_pair r w l x) by done. fold q.
    assert (Hfirst : firstValue q key = "") by (unfold firstValue; by rewrite Hnone).
    rewrite Hfirst. cbn [String.eqb negb].
    assert (Hadd : Values_Add q key value = <[key := [value]]> q).
    { unfold Values_Add. by rewrite lookup_total_alt, Hnone. }
    rewrite Hadd.
    erewrite Params_pair; [|done|done|unfold withQuery; cbn; apply lookup_insert_eq].
    cbn [RawQuery]. rewrite Hround.
    assert (Hv' : firstValue (<[key := [value]]> q) key = value).
    { unfold firstValue. by rewrite lookup_insert_eq. }
    rewrite Hv'. apply String.eqb_neq in Hv. rewrite Hv. cbn [negb].
    unfold Values_Set, withQuery. cbn. by rewrite !insert_insert_eq.
Qed.

End ParamsProperties.

Section ParamsClosed.
#[local] Existing Instance Plain.externals.

(** [New] on the plain capabilities. *)
Lemma New_base :
  New (Plain.always Scenario.unavailable) TString context_Background Scenario.link emptyWorld
  = Ret Scenario.base Scenario.world0.
Proof. by vm_compute. Qed.

(** C9 on the descriptor [New] makes of the plain address: after
    [Params("a", "1")] and [Params("a", "2")] the query is [a=2]. *)
Lemma C9_witness :
  (r' ← Params Scenario.base ["a"; "1"]; Params r' ["a"; "2"]) Scenario.world0 =
  Ret Scenario.base
      (withQuery Scenario.world0 2%positive (mkURL "" "" Scenario.link "") {[ "a" := ["2"] ]}).
Proof.
  pose proof (C9_Params_replaces_by_first_value Scenario.base Scenario.world0 2%positive
                (mkURL "" "" Scenario.link "") "a" "1" eq_refl eq_refl eq_refl) as (_ & _ & Htwo).
  apply (Htwo "2"); [reflexivity | discriminate | by vm_compute].
Defined.

(** C9 fails as stated: the key [a] holds the two values 1 and 3, and
    [Params("a", "2")] does not append a third value: it leaves [a=2]. *)
Lemma C9_counterexample :
  ∃ r w0 w1,
    New (Plain.always Scenario.unavailable) TString context_Background
        (Scenario.link +:+ "?a=1&a=3") emptyWorld = Ret r w0 ∧
    Scenario.queryValues r w0 "a" = Some ["1"; "3"] ∧
    Scenario.twoValues emptyWorld = Ret r w1 ∧
    Scenario.queryValues r w1 "a" = Some ["2"] ∧
    Scenario.queryValues r w1 "a" ≠ Some ["1"; "3"; "2"].
Proof.
  eexists _, _, _. split; [by vm_compute|]. split; [by vm_compute|].
  split; [by vm_compute|]. split; [by vm_compute|]. by vm_compute.
Qed.

End ParamsClosed.

(** ** The configuration methods *)

Section ConfigurationProperties.
Context `{Externals}.

(** The guard [if r.ctx.Err() != nil { return r }]: on a cancelled
    descriptor every configuration method that has it returns the
    descriptor as it is and leaves the store alone. *)
Lemma configuration_guard (r : Request) :
  cancelled r = true →
  (∀ cl, Client_ r cl = mret r) ∧ (∀ path, Path_ r path = mret r) ∧
  (∀ attr, Params r attr = mret r) ∧ (∀ attr, Headers r attr = mret r) ∧
  (∀ m, Method_ r m = mret r) ∧ (∀ dt, BodyJson r dt = mret r) ∧
  (∀ m, BodyMultipart r m = mret r) ∧ (∀ raw, BodyRaw r raw = mret r) ∧
  (∀ p, Proxy r p = mret r) ∧ (∀ b, ToBody r b = mret r) ∧
  (∀ options, Retry r options = mret r).
Proof.
  intros Hc.
  unfold Client_, Path_, Params, Headers, Method_, BodyJson, BodyMultipart, BodyRaw,
    Proxy, ToBody, Retry.
  rewrite Hc. by repeat split.
Qed.

(** [Cookie] has no guard. *)
Lemma Cookie_unguarded (r : Request) (c : list Cookie) (w : World) :
  Cookie_ r c w = Ret (set_cookie r c) w.
Proof. reflexivity. Qed.

(** [Method] looks at the method the descriptor holds. *)
Lemma Method_spec (r : Request) (m : string) (w : World) :
  cancelled r = false →
  Method_ r m w =
  Ret (set_method
         (if bool_decide (method r ∈ standardMethods) then r
          else contextErr (set_err r (Some (errors_New "method incorrect")))
                          (Some (errors_New "method incorrect"))) m) w.
Proof. intros Hc. unfold Method_. rewrite Hc. by destruct (bool_decide _). Qed.

(** The clone points to the header map and to the address of the
    original. *)
Lemma Clone_aliases (r c : Request) :
  Clone r = Ok c → headers c = headers r ∧ u c = u r ∧ is_Some (finalReq c).
Proof.
  unfold Clone. destruct (finalReq r) eqn:Hf, (data r), (dataReader r);
    intros [= <-] || discriminate; cbn; rewrite ?Hf; eauto.
Qed.

(** [New] leaves [finalReq] nil, whatever its arguments. *)
Lemma New_finalReq (cl : Client) (T : GoType) (c : Context) (link : string)
    (w w' : World) (r : Request) :
  New cl T c link w = Ret r w' →
  finalReq r = None ∧ retryOptions r = emptyOptions ∧ isJson r = checkType T ∧
  resultType r = T ∧ method r = MethodGet.
Proof.
  unfold New, allocHeader, allocURL. unfold_monad.
  destruct (url_Parse link); intros [= <- <-]; done.
Qed.

End ConfigurationProperties.

(** ** The execution engine *)

Section FetchProperties.
Context `{Externals}.

Lemma quiet_ret {A} (a : A) : quiet (mret a).
Proof. intros w. unfold_monad. cbn. by repeat split. Qed.

Lemma quiet_nilDeref {A} : quiet (@panic A nilDeref).
Proof. intros w. unfold_monad. cbn. split; [done|]. split; [|done]. by intros ?? [= <- _]. Qed.

Lemma quiet_bind {A B} (m : M A) (k : A → M B) :
  quiet m → (∀ a, quiet (k a)) → quiet (m ≫= k).
Proof.
  intros Hm Hk w. unfold_monad. destruct (Hm w) as (Ht & Hp & Hf).
  destruct (m w) as [a w1|msg w1|w1] eqn:E; cbn in *.
  - destruct (Hk a w1) as (Ht' & Hp' & Hf'). rewrite Ht', Ht. by repeat split.
  - split; [done|]. split; [|done]. intros ?? [= <- <-]. by eapply Hp.
  - by destruct (Hf w1).
Qed.

Lemma quiet_loadURL (l : option loc) : quiet (loadURL l).
Proof.
  intros w. unfold loadURL. destruct (l ≫= _); cbn.
  - by repeat split.
  - split; [done|]. split; [|done]. by intros ?? [= <- _].
Qed.

Lemma quiet_readHeaders (l : option loc) : quiet (readHeaders l).
Proof. intros w. unfold readHeaders. cbn. by repeat split. Qed.

Lemma quiet_tee (r : Request) (p : list byte) : quiet (tee r p).
Proof.
  unfold tee. destruct (retBody r), p; try apply quiet_ret.
  intros w. unfold writeBuffer. cbn. by repeat split.
Qed.

Lemma quiet_fixMethod (r : Request) : quiet (fixMethod r).
Proof.
  unfold fixMethod. destruct (finalReq r) as [req|]; [|apply quiet_nilDeref].
  destruct (String.eqb (Method req) MethodGet); apply quiet_ret.
Qed.

Lemma quiet_newFinalReq (r : Request) (b : option (list byte)) : quiet (newFinalReq r b).
Proof.
  unfold newFinalReq. apply quiet_bind; [apply quiet_loadURL|]. intros x.
  destruct (http_NewRequest _ _ _); apply quiet_ret.
Qed.

Lemma quiet_make (m : Multipart) : quiet (lift (Multipart_make m)).
Proof.
  unfold Multipart_make. destruct (wr m), (mbody m); cbn;
    first [apply quiet_ret | apply quiet_nilDeref].
Qed.

Ltac quiet_step :=
  first
    [ apply quiet_ret | apply quiet_nilDeref | apply quiet_loadURL
    | apply quiet_readHeaders | apply quiet_tee | apply quiet_fixMethod
    | apply quiet_newFinalReq | apply quiet_make
    | apply quiet_bind; [|intros]
    | match goal with
      | |- quiet (match ?x with _ => _ end) => destruct x
      | |- quiet (let 'pair _ _ := ?x in _) => destruct x
      end ].

Lemma quiet_buildFinalReq (r : Request) : quiet (buildFinalReq r).
Proof. unfold buildFinalReq. repeat quiet_step. Qed.

Lemma quiet_makeRequest (r : Request) : quiet (makeRequest r).
Proof.
  unfold makeRequest. apply quiet_bind; [apply quiet_buildFinalReq|].
  intros [r1 early]. repeat quiet_step.
Qed.

(** Behind a pointer no assertion of [any] fails. *)
Lemma any_pointer (T : GoType) (t : GoValue) (dt : list byte) :
  ∃ v e, any (TPtr T) t dt = Ok (v, e).
Proof.
  destruct T; cbn; eauto.
  destruct (strconv_ParseBool _); eauto.
Qed.

(** The destinations that are not JSON: [any] never returns an error for
    them, and leaves an [int] as it was. *)
Lemma any_not_json (T : GoType) (t : GoValue) (dt : list byte) :
  checkType T = false →
  ∃ v, any (TPtr T) t dt = Ok (v, None) ∧ (T = TInt → v = t).
Proof.
  destruct T as [| | | |[]|]; cbn; try discriminate; intros _; eexists; split; try done.
Qed.

Lemma quiet_any (T : GoType) (t : GoValue) (dt : list byte) : quiet (lift (any (TPtr T) t dt)).
Proof. destruct (any_pointer T t dt) as (v & e & ->). apply quiet_ret. Qed.

Lemma quiet_checkStatus (r : Request) (resp : Response) (t : GoValue) :
  quiet (checkStatus r resp t).
Proof. unfold checkStatus. destruct (badStatus resp); apply quiet_ret. Qed.

Lemma quiet_decodeResponse (r : Request) (resp : Response) : quiet (decodeResponse r resp).
Proof.
  unfold decodeResponse.
  repeat first [ apply quiet_checkStatus | apply quiet_any | quiet_step ].
Qed.

Lemma transportCalls_addEvent (w : World) (ev : Event) :
  transportCalls (addEvent w ev) = (transportCalls w + (if isDo ev then 1 else 0))%nat.
Proof.
  unfold transportCalls, addEvent. cbn. rewrite filter_app, length_app. cbn.
  destruct ev; cbn; done.
Qed.

Lemma sleeps_addEvent (w : World) (ev : Event) :
  sleeps (addEvent w ev) =
  (sleeps w ++ match ev with EvSleep c => [c] | EvDo _ => [] end)%list.
Proof. unfold sleeps, addEvent. cbn. rewrite omap_app. by destruct ev. Qed.

(** [request] panics on a nil client or request, before the transport is
    reached; otherwise it records its one call of [Do]. *)
Lemma request_cases (r : Request) (w : World) :
  (request r w = Panic nilDeref w ∧ (client r = None ∨ finalReq r = None)) ∨
  (∃ cl req x, client r = Some cl ∧ finalReq r = Some req ∧
               request r w = Ret x (addEvent w (EvDo req)) ∧
               match Do cl (transportCalls w) req with
               | DoOk resp => x = (Some resp, None)
               | DoErr _ e => x = (None, Some e)
               end).
Proof.
  unfold request. destruct (client r) as [cl|]; [|left; auto].
  destruct (finalReq r) as [req|]; [|left; auto].
  right. exists cl, req. destruct (Do cl _ req); eexists; repeat split; done.
Qed.

(** With a policy whose [Repeat] declines, the loop ends at once. *)
Lemma retryLoop_declined (fuel : nat) (r : Request) (resp : option Response) (cnt : Z) (w : World) :
  Repeat (retryOptions r) resp (err r) = false →
  retryLoop (S fuel) r resp cnt w = Ret false w.
Proof. intros Hr. cbn. by rewrite Hr. Qed.

(** The loop calls nothing but [Sleep]. *)
Lemma retryLoop_no_transport (fuel : nat) (r : Request) (resp : option Response) :
  ∀ (cnt : Z) (w : World),
    transportCalls (worldOf (retryLoop fuel r resp cnt w)) = transportCalls w.
Proof.
  induction fuel as [|fuel IH]; intros cnt w; [done|]. cbn.
  destruct (Repeat _ _ _); [|done].
  destruct (_ || _); [done|].
  unfold policySleep, emit. unfold_monad. cbn. fold (addEvent w (EvSleep cnt)).
  destruct (Sleep _ cnt) as [[]|]; cbn [lift negb worldOf]; unfold_monad; cbn [worldOf negb];
    rewrite ?IH, transportCalls_addEvent; cbn; lia.
Qed.

Lemma wrapInt_small (z : Z) : (int_min ≤ z ≤ int_max)%Z → wrapInt z = z.
Proof.
  unfold int_min, int_max, wrapInt. intros Hz.
  rewrite Z.mod_small; lia.
Qed.

(** A policy that keeps asking, lets [n] sleeps through from the counter
    [1 + k] on and refuses the next: the loop makes these [n + 1] calls of
    [Sleep] and ends, and the transport is not called again. *)
Lemma retryLoop_refused (r : Request) (resp : Response) (n : nat) :
  ∀ (fuel k : nat) (w : World),
    err r = None →
    Repeat (retryOptions r) (Some resp) None = true →
    (∀ j : nat, (j < n)%nat → Sleep (retryOptions r) (1 + Z.of_nat (k + j)) = Ok true) →
    Sleep (retryOptions r) (1 + Z.of_nat (k + n)) = Ok false →
    (n < fuel)%nat → (Z.of_nat (k + n) < int_max)%Z →
    ∃ w', retryLoop fuel r (Some resp) (1 + Z.of_nat k) w = Ret false w' ∧
          transportCalls w' = transportCalls w ∧
          sleeps w' = (sleeps w ++ map (fun j => 1 + Z.of_nat (k + j))%Z (seq 0 (S n)))%list.
Proof.
  induction n as [|n IH]; intros fuel k w He Hr Hyes Hno Hfuel Hmax;
    (destruct fuel as [|fuel]; [lia|]); cbn [retryLoop]; rewrite He, Hr; cbn [orb bool_decide];
    rewrite bool_decide_eq_false_2 by (by intros [? ?]); cbn [orb];
    rewrite bool_decide_eq_false_2 by done;
    unfold policySleep, emit; unfold_monad; cbn; fold (addEvent w (EvSleep (1 + Z.of_nat k))).
  - replace (k + 0)%nat with k in Hno by lia. rewrite Hno. cbn.
    eexists. split; [done|]. rewrite transportCalls_addEvent, sleeps_addEvent. cbn.
    split; [lia|]. by replace (k + 0)%nat with k by lia.
  - pose proof (Hyes 0%nat ltac:(lia)) as Hfirst.
    replace (k + 0)%nat with k in Hfirst by lia. rewrite Hfirst. cbn [lift negb]. unfold_monad.
    rewrite wrapInt_small by (unfold int_min, int_max in *; lia).
    replace (1 + Z.of_nat k + 1)%Z with (1 + Z.of_nat (S k))%Z by lia.
    destruct (IH fuel (S k) (addEvent w (EvSleep (1 + Z.of_nat k)))) as (w' & Hrun & Hcalls & Hsl).
    + done.
    + done.
    + intros j Hj. replace (S k + j)%nat with (k + S j)%nat by lia. apply Hyes. lia.
    + by replace (S k + n)%nat with (k + S n)%nat by lia.
    + lia.
    + lia.
    + exists w'. split; [done|]. rewrite Hcalls, Hsl, transportCalls_addEvent, sleeps_addEvent.
      cbn [isDo]. split; [lia|]. rewrite <- app_assoc. f_equal.
      transitivity (map (fun j : nat => (1 + Z.of_nat (k + j))%Z)
                        (0%nat :: map S (seq 0 (S n)))).
      2: { by rewrite seq_shift. }
      cbn [map app]. rewrite map_map.
      f_equal; [f_equal; lia|]. apply map_ext. intros j. f_equal. lia.
Qed.

(** What a successful [makeRequest] leaves in the descriptor. *)
Lemma makeRequest_ok (r r1 : Request) (w w1 : World) :
  makeRequest r w = Ret (r1, None) w1 →
  is_Some (finalReq r1) ∧ err r1 = None ∧
  retryOptions r1 = retryOptions r ∧ client r1 = client r ∧
  resultType r1 = resultType r ∧ isJson r1 = isJson r.
Proof.
  unfold makeRequest, buildFinalReq, newFinalReq, fixMethod, readHeaders, loadURL, lift.
  unfold_monad. intros Hm.
  repeat (case_match; simplify_eq; cbn in *; try done).
Qed.

Lemma same_trace (w w' : World) :
  trace w' = trace w → transportCalls w' = transportCalls w ∧ sleeps w' = sleeps w.
Proof. unfold transportCalls, sleeps. by intros ->. Qed.

(** [Fetch] up to the retry loop, when the request is materialised and the
    client is there: one call of the transport, whose answer [request]
    turns into the pair [x]. *)
Lemma Fetch_after_request (fuel : nat) (r r1 : Request) (w w1 : World)
    (cl : Client) (req : HttpRequest) :
  err r = None → ctx_err (ctx r) = None →
  makeRequest r w = Ret (r1, None) w1 →
  client r1 = Some cl → finalReq r1 = Some req →
  let x := match Do cl (transportCalls w1) req with
           | DoOk resp => (Some resp, None)
           | DoErr _ e => (None, Some e)
           end in
  let r2 := set_err r1 x.2 in
  Fetch fuel r w =
  (returned ← retryLoop fuel r2 x.1 1;
   if returned : bool
   then mret (contextErr r2 (err r2), zeroValue (resultType r), err r2)
   else match x.1 with
        | None => mret (r2, zeroValue (resultType r), err r2)
        | Some resp => decodeResponse r2 resp
        end) (addEvent w1 (EvDo req)).
Proof.
  intros He Hc Hm Hcl Hreq. unfold Fetch. rewrite He, Hc.
  unfold mbind at 1. unfold M_bind, bind at 1. rewrite Hm.
  unfold mbind at 1. unfold M_bind, bind at 1.
  unfold request. rewrite Hcl, Hreq.
  destruct (Do cl _ req); reflexivity.
Qed.

Lemma prefix_append (s t : string) : String.prefix s (s +:+ t) = true.
Proof.
  induction s as [|c s IH]; [by destruct t|].
  change (String c s +:+ t) with (String c (s +:+ t)). simpl String.prefix.
  destruct (ascii_dec c c); [done|congruence].
Qed.

Lemma contextErr_cancelled (r : Request) (e : error) : cancelled (contextErr r (Some e)) = true.
Proof.
  unfold cancelled, contextErr, cancelWithCause. apply bool_decide_eq_true.
  destruct r as [[[e'|] cause] ?]; cbn; eauto.
Qed.

(** After the retry loop, for a response outside the 2xx range whose body
    is set up for reading and, on the path without JSON, read to its end. *)
Lemma decodeResponse_badStatus (r : Request) (resp : Response) (reader : Reader) (w : World) :
  err r = None →
  badStatus resp = true →
  decompress resp = inr reader →
  isJson r = checkType (resultType r) →
  isJson r = true ∨ rd_err reader = None →
  ∃ r' v e w',
    decodeResponse r resp w = Ret (r', v, Some e) w' ∧
    String.prefix (Status resp) (Error e) = true ∧
    (isJson r = true → v = (json_Decode (resultType r) reader).1.1) ∧
    (isJson r = false →
       any (TPtr (resultType r)) (zeroValue (resultType r)) (rd_data reader) = Ok (v, None)) ∧
    err r' = Some e ∧ cancelled r' = true ∧ lastResponse r' = Some resp.
Proof.
  intros He Hbad Hdec Hinv Hread. unfold decodeResponse. cbn -[any]. rewrite He, Hdec.
  destruct (isJson r) eqn:Hj.
  - destruct (json_Decode (resultType r) reader) as [[v de] p].
    destruct (quiet_tee (set_cookie (set_lastResponse r (Some resp))
                (readSetCookies (RespHeader resp))) p w) as (_ & Hp & Hf).
    unfold mbind, M_bind, bind.
    destruct (tee _ p w) as [[] w1|msg w1|w1] eqn:Ht.
    2: { exfalso. unfold tee, writeBuffer in Ht. unfold_monad. repeat case_match; done. }
    2: { by destruct (Hf w1). }
    unfold checkStatus. rewrite Hbad.
    destruct de as [de|]; cbn; do 4 eexists; (split; [reflexivity|]);
      cbn; (split; [apply prefix_append|]); repeat split; try done;
      apply bool_decide_eq_true; unfold cancelWithCause; cbn;
      destruct (ctx_err (ctx r)) eqn:E; cbn; rewrite ?E; eauto.
  - destruct Hread as [?|Hrd]; [done|].
    destruct (any_not_json (resultType r) (zeroValue (resultType r)) (rd_data reader))
      as (v & Hany & _); [congruence|].
    unfold mbind, M_bind, bind.
    destruct (tee _ (rd_data reader) w) as [[] w1|msg w1|w1] eqn:Ht.
    2,3: exfalso; unfold tee, writeBuffer in Ht; unfold_monad; repeat case_match; done.
    cbn -[any]. rewrite Hrd, Hany. cbn. unfold checkStatus. rewrite Hbad. cbn.
    do 4 eexists. split; [reflexivity|]. cbn. split; [apply prefix_append|].
    repeat split; try done.
    apply bool_decide_eq_true; unfold cancelWithCause; cbn;
      destruct (ctx_err (ctx r)) eqn:E; cbn; rewrite ?E; eauto.
Qed.

(** An error of setting up the decompressor ends [Fetch] with that error
    and the zero value, whatever the status. *)
Lemma decodeResponse_setupError (r : Request) (resp : Response) (de : error) (w : World) :
  err r = None → decompress resp = inl de →
  ∃ r', decodeResponse r resp w = Ret (r', zeroValue (resultType r), Some de) w ∧
        err r' = Some de ∧ cancelled r' = true ∧ lastResponse r' = Some resp.
Proof.
  intros He Hdec. unfold decodeResponse. cbn -[contextErr]. rewrite He, Hdec.
  eexists. split; [reflexivity|]. split; [done|]. split; [|done].
  apply contextErr_cancelled.
Qed.

(** On the path without JSON an error of reading the body ends [Fetch]
    with that error and the zero value, whatever the status. *)
Lemma decodeResponse_readError (r : Request) (resp : Response) (reader : Reader)
    (re : error) (w : World) :
  err r = None → decompress resp = inr reader →
  isJson r = false → rd_err reader = Some re →
  ∃ r' w', decodeResponse r resp w = Ret (r', zeroValue (resultType r), Some re) w' ∧
           err r' = Some re ∧ cancelled r' = true ∧ lastResponse r' = Some resp.
Proof.
  intros He Hdec Hj Hrd. unfold decodeResponse. cbn -[any contextErr]. rewrite He, Hdec, Hj.
  unfold mbind, M_bind, bind.
  destruct (tee _ (rd_data reader) w) as [[] w1|msg w1|w1] eqn:Ht.
  2,3: exfalso; unfold tee, writeBuffer in Ht; unfold_monad; repeat case_match; done.
  cbn -[any contextErr]. rewrite Hrd.
  eexists _, _. split; [reflexivity|]. split; [done|]. split; [|done].
  apply contextErr_cancelled.
Qed.

Lemma retryLoop_ends (fuel : nat) (r : Request) (resp : Response) (w : World) :
  err r = None → endsWithin (retryOptions r) resp fuel →
  ∃ w', retryLoop fuel r (Some resp) 1 w = Ret false w' ∧
        transportCalls w' = transportCalls w.
Proof.
  intros He Hends.
  destruct (Repeat (retryOptions r) (Some resp) None) eqn:Hr.
  - destruct Hends as [[_ ?]|(n & [Hyes Hno] & Hfuel & Hmax)]; [congruence|].
    destruct (retryLoop_refused r resp n fuel 0 w) as (w' & Hrun & Hcalls & _); try done.
    exists w'. by split.
  - assert (0 < fuel)%nat as Hpos by (destruct Hends as [[? _]|(n & _ & ? & _)]; lia).
    destruct fuel as [|fuel]; [lia|]. exists w. split; [|done].
    apply retryLoop_declined. by rewrite He.
Qed.

(** C5, as the code has it: when the transport answers and the retry loop
    comes to its end, three things can happen.  With a status outside
    [200,300), the reader of the body set up and, on the path without JSON,
    the body read to its end, [Fetch] returns an error whose message starts
    with the status of the response, also when the decoding succeeded; the
    decoding is done before the status is checked and its value is returned
    with the error.  An error of setting up the decompressor is returned as
    it is, with the zero value, and so is, on the path without JSON, an
    error of reading the body: neither names the status. *)
Theorem C5_bad_status_is_reported
    (fuel : nat) (r r1 : Request) (w w1 : World) (cl : Client) (req : HttpRequest)
    (resp : Response) :
  err r = None → ctx_err (ctx r) = None →
  makeRequest r w = Ret (r1, None) w1 →
  client r1 = Some cl → finalReq r1 = Some req →
  Do cl (transportCalls w1) req = DoOk resp →
  endsWithin (retryOptions r1) resp fuel →
  (∀ reader,
     badStatus resp = true →
     decompress resp = inr reader →
     isJson r1 = checkType (resultType r1) →
     isJson r1 = true ∨ rd_err reader = None →
     ∃ r' v e w',
       Fetch fuel r w = Ret (r', v, Some e) w' ∧
       String.prefix (Status resp) (Error e) = true ∧
       (isJson r1 = true → v = (json_Decode (resultType r1) reader).1.1) ∧
       (isJson r1 = false →
          any (TPtr (resultType r1)) (zeroValue (resultType r1)) (rd_data reader) = Ok (v, None)) ∧
       err r' = Some e ∧ cancelled r' = true) ∧
  (∀ de,
     decompress resp = inl de →
     ∃ r' w',
       Fetch fuel r w = Ret (r', zeroValue (resultType r1), Some de) w' ∧
       err r' = Some de ∧ cancelled r' = true) ∧
  (∀ reader re,
     decompress resp = inr reader → isJson r1 = false → rd_err reader = Some re →
     ∃ r' w',
       Fetch fuel r w = Ret (r', zeroValue (resultType r1), Some re) w' ∧
       err r' = Some re ∧ cancelled r' = true).
Proof.
  intros He Hc Hm Hcl Hreq Hdo Hends.
  rewrite (Fetch_after_request fuel r r1 w w1 cl req) by done. rewrite Hdo. cbn [fst snd].
  destruct (retryLoop_ends fuel (set_err r1 None) resp (addEvent w1 (EvDo req)))
    as (w2 & Hloop & _); [done|done|].
  unfold mbind, M_bind, bind. rewrite Hloop.
  split; [|split].
  - intros reader Hbad Hdec Hinv Hread.
    destruct (decodeResponse_badStatus (set_err r1 None) resp reader w2)
      as (r' & v & e & w' & Hrun & Hpre & Hjson & Hplain & Herr & Hcan & _); try done.
    exists r', v, e, w'. by repeat split.
  - intros de Hdec.
    destruct (decodeResponse_setupError (set_err r1 None) resp de w2)
      as (r' & Hrun & Herr & Hcan & _); try done.
    by exists r', w2.
  - intros reader re Hdec Hj Hrd.
    destruct (decodeResponse_readError (set_err r1 None) resp reader re w2)
      as (r' & w' & Hrun & Herr & Hcan & _); try done.
    by exists r', w'.
Qed.
(** C10, as the code has it: with the policy [emptyOptions] that [New]
    installs, [Fetch] never calls [Sleep], so the panic of
    [emptyOptions.Sleep] cannot be reached through it; the loop ends and the
    transport is invoked at most once: exactly once when the descriptor is
    not in an error state, its request is materialised and it has a client,
    and not at all otherwise. *)
Theorem C10_emptyOptions_never_sleeps (fuel : nat) (r : Request) (w : World) :
  retryOptions r = emptyOptions →
  sleeps (worldOf (Fetch (S fuel) r w)) = sleeps w ∧
  (∀ msg w', Fetch (S fuel) r w = Panic msg w' → msg = nilDeref) ∧
  (∀ w', Fetch (S fuel) r w ≠ OutOfFuel w') ∧
  (transportCalls (worldOf (Fetch (S fuel) r w)) ≤ transportCalls w + 1)%nat ∧
  (∀ r1 w1,
     err r = None → ctx_err (ctx r) = None →
     makeRequest r w = Ret (r1, None) w1 → is_Some (client r1) →
     transportCalls (worldOf (Fetch (S fuel) r w)) = (transportCalls w + 1)%nat) ∧
  (is_Some (err r) ∨ is_Some (ctx_err (ctx r)) →
     transportCalls (worldOf (Fetch (S fuel) r w)) = transportCalls w).
Proof.
  intros Hpol.
  destruct (err r) as [e0|] eqn:He.
  { unfold Fetch. rewrite He. cbn. repeat split; try done; lia. }
  destruct (ctx_err (ctx r)) as [e0|] eqn:Hc.
  { unfold Fetch. rewrite He, Hc. cbn. repeat split; try done; lia. }
  destruct (quiet_makeRequest r w) as (Ht & Hp & Hf).
  destruct (makeRequest r w) as [[r1 [e|]] w1|msg w1|w1] eqn:Hm; cbn in Ht.
  - (* materialisation returned an error *)
    unfold Fetch. rewrite He, Hc. unfold mbind, M_bind, bind. rewrite Hm. cbn.
    destruct (same_trace w w1 Ht) as [-> ->].
    repeat split; try done; try lia; try (by intros [[? ?]|[? ?]]).
  - destruct (makeRequest_ok r r1 w w1 Hm) as ([req Hreq] & He1 & Hpol1 & _).
    destruct (same_trace w w1 Ht) as [Hcalls Hsleeps].
    destruct (client r1) as [cl|] eqn:Hcl.
    + rewrite (Fetch_after_request (S fuel) r r1 w w1 cl req) by done.
      set (x := match Do cl (transportCalls w1) req with
                | DoOk resp => (Some resp, None)
                | DoErr _ e => (None, Some e)
                end).
      unfold mbind, M_bind, bind.
      rewrite retryLoop_declined by (cbn; by rewrite Hpol1, Hpol).
      assert (Hw2 : transportCalls (addEvent w1 (EvDo req)) = (transportCalls w + 1)%nat
                    ∧ sleeps (addEvent w1 (EvDo req)) = sleeps w).
      { rewrite transportCalls_addEvent, sleeps_addEvent, Hcalls, Hsleeps. cbn.
        by rewrite app_nil_r. }
      destruct Hw2 as [Hc2 Hs2].
      destruct x.1 as [resp|].
      * destruct (quiet_decodeResponse (set_err r1 x.2) resp (addEvent w1 (EvDo req)))
          as (Htd & Hpd & Hfd).
        destruct (same_trace _ _ Htd) as [-> ->]. rewrite Hc2, Hs2.
        repeat split; try done; try lia; try (by intros [[? ?]|[? ?]]).
      * unfold mret, M_ret, ret. cbn [worldOf]. rewrite Hc2, Hs2. repeat split; try done; try lia; try (by intros [[? ?]|[? ?]]).
    + unfold Fetch. rewrite He, Hc. unfold mbind, M_bind, bind. rewrite Hm.
      unfold request. rewrite Hcl. cbn. rewrite Hcalls, Hsleeps.
      repeat split; try done; try lia; try (by intros [[? ?]|[? ?]]);
        try (by intros ?? [= <- _]).
      intros r1' w1' _ _ [= <- <-] [? ?]. congruence.
  - unfold Fetch. rewrite He, Hc. unfold mbind, M_bind, bind. rewrite Hm. cbn.
    destruct (same_trace w w1 Ht) as [-> ->].
    repeat split; try done; try lia; try (by intros [[? ?]|[? ?]]).
    intros ?? [= <- <-]. by eapply Hp.
  - by destruct (Hf w1).
Qed.

(** Whatever the policy, [Fetch] invokes the transport at most once: the
    call [r.request()] is the init statement of the loop and is not run
    again. *)
Lemma Fetch_transport_at_most_once (fuel : nat) (r : Request) (w : World) :
  (transportCalls (worldOf (Fetch fuel r w)) ≤ transportCalls w + 1)%nat.
Proof.
  unfold Fetch.
  destruct (err r) as [e0|] eqn:He; [cbn; lia|].
  destruct (ctx_err (ctx r)) as [e0|] eqn:Hc; [cbn; lia|].
  destruct (quiet_makeRequest r w) as (Ht & _ & _).
  unfold mbind at 1. unfold M_bind, bind at 1.
  destruct (makeRequest r w) as [[r1 [e|]] w1|msg w1|w1] eqn:Hm; cbn in Ht;
    destruct (same_trace w w1 Ht) as [Hcalls _]; try (cbn; lia).
  unfold mbind at 1. unfold M_bind, bind at 1.
  destruct (request_cases r1 w1) as [[-> _]|(cl & req & [resp e] & _ & _ & -> & _)];
    [cbn; lia|].
  unfold mbind, M_bind, bind.
  pose proof (retryLoop_no_transport fuel (set_err r1 e) resp 1 (addEvent w1 (EvDo req))) as Hl.
  rewrite transportCalls_addEvent in Hl. cbn in Hl.
  destruct (retryLoop fuel _ resp 1 _) as [[] w2|msg w2|w2]; cbn in Hl; try (cbn; lia).
  destruct resp as [resp|]; [|cbn; lia].
  destruct (quiet_decodeResponse (set_err r1 e) resp w2) as (Htd & _ & _).
  destruct (same_trace _ _ Htd) as [-> _]. lia.
Qed.

(** A descriptor in an error state: [Fetch] returns the error at once. *)
Lemma Fetch_latched (fuel : nat) (r : Request) (w : World) :
  is_Some (err r) ∨ is_Some (ctx_err (ctx r)) →
  ∃ e, Fetch fuel r w = Ret (r, zeroValue (resultType r), Some e) w ∧
       (err r = Some e ∨ err r = None ∧ ctx_err (ctx r) = Some e).
Proof.
  unfold Fetch. destruct (err r) as [e|] eqn:He.
  - intros _. exists e. split; [done|]. by left.
  - intros [[? ?]|[e Hc]]; [done|]. rewrite Hc. exists e. split; [done|]. by right.
Qed.

(** With a body and a nil [finalReq], as [New] leaves it, [Fetch] panics
    in [makeRequest], before the transport. *)
Lemma Fetch_nil_finalReq (fuel : nat) (r : Request) (w : World) :
  err r = None → ctx_err (ctx r) = None →
  finalReq r = None → body r ≠ [] →
  Fetch fuel r w = Panic nilDeref w.
Proof.
  intros He Hc Hf Hb. unfold Fetch, makeRequest, buildFinalReq, fixMethod.
  rewrite He, Hc, Hf. destruct (body r); [done|]. reflexivity.
Qed.

(** For every bound [n]: a policy that asks for another attempt on the
    response and lets [n] sleeps through makes [Fetch] sleep [n + 1] times
    and invoke the transport once. *)
Lemma Fetch_sleeps_without_retrying
    (fuel n : nat) (r r1 : Request) (w w1 : World) (cl : Client) (req : HttpRequest)
    (resp : Response) :
  err r = None → ctx_err (ctx r) = None →
  makeRequest r w = Ret (r1, None) w1 →
  client r1 = Some cl → finalReq r1 = Some req →
  Do cl (transportCalls w1) req = DoOk resp →
  Repeat (retryOptions r1) (Some resp) None = true →
  stopsAfter (retryOptions r1) n → (n < fuel)%nat → (Z.of_nat n < int_max)%Z →
  transportCalls (worldOf (Fetch fuel r w)) = (transportCalls w + 1)%nat ∧
  sleeps (worldOf (Fetch fuel r w)) =
  (sleeps w ++ map (fun j => 1 + Z.of_nat j)%Z (seq 0 (S n)))%list.
Proof.
  intros He Hc Hm Hcl Hreq Hdo Hrep [Hyes Hno] Hfuel Hmax.
  rewrite (Fetch_after_request fuel r r1 w w1 cl req) by done. rewrite Hdo. cbn [fst snd].
  destruct (retryLoop_refused (set_err r1 None) resp n fuel 0 (addEvent w1 (EvDo req)))
    as (w2 & Hloop & Hcalls & Hsleeps); try done.
  change (1 + Z.of_nat 0)%Z with 1%Z in Hloop.
  unfold mbind, M_bind, bind. rewrite Hloop.
  destruct (quiet_decodeResponse (set_err r1 None) resp w2) as (Htd & _ & _).
  destruct (same_trace _ _ Htd) as [-> ->].
  destruct (quiet_makeRequest r w) as (Ht & _ & _). rewrite Hm in Ht. cbn in Ht.
  destruct (same_trace _ _ Ht) as [Hc1 Hs1].
  rewrite Hcalls, Hsleeps, transportCalls_addEvent, sleeps_addEvent, Hc1, Hs1. cbn [isDo].
  split; [done|]. by rewrite app_nil_r.
Qed.

End FetchProperties.

(** ** The engine on closed inputs *)

Section FetchClosed.
#[local] Existing Instance Plain.externals.

(** C1 fails on the code: the policy [retryUpTo 2] asks for another attempt
    on every answer and its [Sleep] lets two through, the transport answers
    503 every time, and [Fetch] sleeps with the counters 1, 2 and 3 but
    invokes the transport once, not three times. *)
Theorem C1_retry_never_reexecutes :
  ∃ r v e w,
    Scenario.retried emptyWorld = Ret (r, v, Some e) w ∧
    Repeat (retryOptions r) (lastResponse r) None = true ∧
    stopsAfter (retryOptions r) 2 ∧
    sleeps w = [1; 2; 3]%Z ∧
    transportCalls w = 1%nat.
Proof.
  eexists _, _, _, _. split; [by vm_compute|].
  split; [done|]. split; [|by vm_compute].
  split; [|done]. intros [|[|k]] Hk; [done|done|lia].
Qed.

(** C5 fails as stated: the transport answers 500 and the body breaks off
    while it is read into a text destination; [Fetch] returns the error of
    the read, which does not name the status. *)
Lemma C5_counterexample :
  badStatus Scenario.truncated = true ∧
  ∃ r v e w,
    Scenario.fetched TString Scenario.truncated emptyWorld = Ret (r, v, Some e) w ∧
    transportCalls w = 1%nat ∧
    Error e = "unexpected EOF" ∧
    String.prefix (Status Scenario.truncated) (Error e) = false ∧
    String.index 0 "500" (Error e) = None.
Proof.
  split; [done|]. eexists _, _, _, _. split; [by vm_compute|]. by vm_compute.
Qed.

(** C5 on the descriptor [New] makes: against a transport that answers 503
    with the body [busy] the text is decoded and returned with the error
    of the status; against a 502 that announces gzip over other bytes the
    error of [gzip.NewReader] comes back; against a 500 whose body breaks
    off the error of the read comes back. *)
Lemma C5_witness :
  (∃ r' e w',
     Fetch 1 Scenario.base Scenario.world0 = Ret (r', VString "busy", Some e) w' ∧
     String.prefix "503 Service Unavailable" (Error e) = true) ∧
  (∃ r' w',
     Fetch 1 (Scenario.against Scenario.garbled) Scenario.world0
     = Ret (r', VString "", Some Plain.gzipErrHeader) w') ∧
  (∃ r' w',
     Fetch 1 (Scenario.against Scenario.truncated) Scenario.world0
     = Ret (r', VString "", Some Plain.unexpectedEOF) w').
Proof.
  split; [|split].
  - destruct (C5_bad_status_is_reported 1 Scenario.base Scenario.madeRequest
                Scenario.world0 Scenario.madeWorld (Plain.always Scenario.unavailable)
                (mkHttpRequest "GET" (mkURL "" "" Scenario.link "")
                   {[ "Accept-Encoding" := ["deflate,gzip,zstd,br"];
                      "User-Agent" := ["SomniSom-goreq/1.0"] ]} None)
                Scenario.unavailable)
      as [Hstatus _].
    + reflexivity.
    + reflexivity.
    + by vm_compute.
    + reflexivity.
    + by vm_compute.
    + reflexivity.
    + left. split; [lia|reflexivity].
    + destruct (Hstatus (Body Scenario.unavailable))
        as (r' & v & e & w' & Hrun & Hpre & _ & Hplain & _).
      * reflexivity.
      * reflexivity.
      * reflexivity.
      * right. reflexivity.
      * specialize (Hplain eq_refl). injection Hplain as <-.
        exists r', e, w'. split; [exact Hrun | exact Hpre].
  - destruct (C5_bad_status_is_reported 1 (Scenario.against Scenario.garbled)
                (Scenario.madeAgainst Scenario.garbled)
                Scenario.world0 Scenario.world0 (Plain.always Scenario.garbled)
                (mkHttpRequest "GET" (mkURL "" "" Scenario.link "")
                   {[ "Accept-Encoding" := ["deflate,gzip,zstd,br"];
                      "User-Agent" := ["SomniSom-goreq/1.0"] ]} None)
                Scenario.garbled)
      as (_ & Hsetup & _).
    + reflexivity.
    + reflexivity.
    + by vm_compute.
    + reflexivity.
    + by vm_compute.
    + reflexivity.
    + left. split; [lia|reflexivity].
    + destruct (Hsetup Plain.gzipErrHeader) as (r' & w' & Hrun & _).
      * reflexivity.
      * exists r', w'. exact Hrun.
  - destruct (C5_bad_status_is_reported 1 (Scenario.against Scenario.truncated)
                (Scenario.madeAgainst Scenario.truncated)
                Scenario.world0 Scenario.world0 (Plain.always Scenario.truncated)
                (mkHttpRequest "GET" (mkURL "" "" Scenario.link "")
                   {[ "Accept-Encoding" := ["deflate,gzip,zstd,br"];
                      "User-Agent" := ["SomniSom-goreq/1.0"] ]} None)
                Scenario.truncated)
      as (_ & _ & Hread).
    + reflexivity.
    + reflexivity.
    + by vm_compute.
    + reflexivity.
    + by vm_compute.
    + reflexivity.
    + left. split; [lia|reflexivity].
    + destruct (Hread (Body Scenario.truncated) Plain.unexpectedEOF) as (r' & w' & Hrun & _).
      * reflexivity.
      * reflexivity.
      * reflexivity.
      * exists r', w'. exact Hrun.
Defined.

(** C10 fails as stated: a descriptor with a latched configuration error
    still has the policy of [New], and [Fetch] returns the error without any
    transport invocation. *)
Lemma C10_counterexample :
  ∃ r w r' v e w',
    Scenario.broken emptyWorld = Ret r w ∧
    retryOptions r = emptyOptions ∧
    Fetch 1 r w = Ret (r', v, Some e) w' ∧
    transportCalls w = 0%nat ∧
    transportCalls w' = 0%nat ∧
    transportCalls w' ≠ 1%nat.
Proof.
  eexists _, _, _, _, _, _. split; [by vm_compute|]. split; [done|].
  split; [by vm_compute|]. by vm_compute.
Qed.

(** C10 on the descriptor [New] makes: no sleep, one transport call. *)
Lemma C10_witness :
  sleeps (worldOf (Fetch 1 Scenario.base Scenario.world0)) = [] ∧
  transportCalls (worldOf (Fetch 1 Scenario.base Scenario.world0)) = 1%nat.
Proof.
  destruct (C10_emptyOptions_never_sleeps 0 Scenario.base Scenario.world0 eq_refl)
    as (Hs & _ & _ & _ & Hone & _).
  split; [exact Hs|].
  apply (Hone Scenario.madeRequest Scenario.madeWorld); [reflexivity|reflexivity| |].
  - by vm_compute.
  - eexists. reflexivity.
Defined.

(** C2 fails on the code: [Cookie] has no guard.  On a descriptor whose
    error slot is set (an odd number of arguments of [Params]) it replaces
    the cookie list. *)
Theorem C2_Cookie_ignores_the_error_state :
  ∃ r w r',
    Scenario.broken emptyWorld = Ret r w ∧
    is_Some (err r) ∧ cancelled r = true ∧
    Cookie_ r Scenario.session w = Ret r' w ∧
    cookie r = [] ∧ cookie r' = Scenario.session ∧ r' ≠ r.
Proof.
  eexists _, _, _. split; [by vm_compute|]. split; [by eexists|]. split; [done|].
  split; [reflexivity|]. split; [done|]. split; [done|].
  intros Heq. apply (f_equal cookie) in Heq. discriminate Heq.
Qed.

(** C3 fails on the code: the clone holds the header map of the original.
    A header added through the clone is a header of the original. *)
Theorem C3_Clone_shares_the_header_map :
  ∃ r w0 c0 c w1,
    New (Plain.always Scenario.unavailable) TString context_Background Scenario.link emptyWorld
      = Ret r w0 ∧
    Clone r = Ok c0 ∧
    Headers c0 ["X-Test"; "1"] w0 = Ret c w1 ∧
    headers c = headers r ∧
    headerValues r w0 "X-Test" = None ∧
    headerValues r w1 "X-Test" = Some ["1"].
Proof.
  eexists _, _, _, _, _. split; [by vm_compute|]. split; [reflexivity|].
  split; [by vm_compute|]. split; [done|]. split; by vm_compute.
Qed.

(** C4 fails on the code: [New] leaves [finalReq] nil, and with a body
    [makeRequest] reads [r.finalReq.Method]: [Fetch] panics before any
    request is made. *)
Theorem C4_BodyRaw_after_New_panics :
  ∃ r w r' w',
    New (Plain.always (Plain.response 200 "200 OK" "ok")) TString context_Background
        Scenario.link emptyWorld = Ret r w ∧
    BodyRaw r Scenario.hello w = Ret r' w ∧
    method r' = MethodPost ∧ body r' = Scenario.hello ∧
    Fetch 1 r' w = Panic nilDeref w' ∧
    Scenario.posted emptyWorld = Panic nilDeref w' ∧
    transportCalls w' = 0%nat.
Proof.
  eexists _, _, _, _. split; [by vm_compute|]. split; [reflexivity|].
  split; [done|]. split; [done|]. split; [by vm_compute|]. split; by vm_compute.
Qed.

(** C6 fails on the code: for an [int] destination [any] is given a [*int],
    which the case [int] does not match.  The body 42 yields 0, and a body
    that is no number yields 0 and no error. *)
Theorem C6_int_destination_is_not_parsed :
  (∃ r w, Scenario.fetched TInt (Plain.response 200 "200 OK" "42") emptyWorld
          = Ret (r, VInt 0, None) w) ∧
  (∃ r w, Scenario.fetched TInt (Plain.response 200 "200 OK" "abc") emptyWorld
          = Ret (r, VInt 0, None) w) ∧
  strconv_Atoi "42" = (42%Z, None) ∧
  is_Some (strconv_Atoi "abc").2.
Proof.
  split; [eexists _, _; by vm_compute|]. split; [eexists _, _; by vm_compute|].
  split; [by vm_compute|]. by eexists.
Qed.

(** C7 fails on the code: [Method] checks the method the descriptor holds,
    not its argument.  On a new descriptor (GET) the method BOGUS is taken
    without an error; after that the standard method GET latches the error. *)
Theorem C7_Method_checks_the_previous_method :
  ("BOGUS" ∉ standardMethods) ∧ ("GET" ∈ standardMethods) ∧
  (∃ r w, Scenario.bogus emptyWorld = Ret r w ∧
          method r = "BOGUS" ∧ err r = None ∧ cancelled r = false) ∧
  (∃ r w, Scenario.bogusThenGet emptyWorld = Ret r w ∧
          method r = "GET" ∧ err r = Some (errors_New "method incorrect") ∧
          cancelled r = true).
Proof.
  split; [apply (bool_decide_unpack _); by vm_compute|].
  split; [apply (bool_decide_unpack _); by vm_compute|].
  split; eexists _, _; (split; [by vm_compute|]); done.
Qed.

(** The rows of the decoding matrix that hold: a boolean destination goes
    through the JSON decoder, a text destination takes the body as it is. *)
Lemma decode_matrix_bool_text :
  (∃ r w, Scenario.fetched TBool (Plain.response 200 "200 OK" "true") emptyWorld
          = Ret (r, VBool true, None) w) ∧
  (∃ r w, Scenario.fetched TString (Plain.response 200 "200 OK" "hello") emptyWorld
          = Ret (r, VString "hello", None) w).
Proof. split; eexists _, _; by vm_compute. Qed.

(** On a clone, whose [finalReq] is allocated, the request is made and its
    method is POST. *)
Lemma postedClone_sends_POST :
  ∃ r v w req,
    Scenario.postedClone emptyWorld = Ret (r, v, None) w ∧
    trace w = [EvDo req] ∧ Method req = MethodPost ∧ ReqBody req = Some Scenario.hello.
Proof. eexists _, _, _, _. split; [by vm_compute|]. by vm_compute. Qed.

End FetchClosed.

(** * Further properties of the configuration methods *)

Section ConfigurationExtras.
Context `{Externals}.

Lemma list_pairs_ind {A} (P : list A → Prop) :
  P [] → (∀ x, P [x]) → (∀ x y l, P l → P (x :: y :: l)) → ∀ l, P l.
Proof.
  intros Hnil Hone Hstep l.
  enough (P l ∧ ∀ x, P (x :: l)) by tauto.
  induction l as [|y l [IH1 IH2]]; [by split|]. split; [apply IH2|].
  intros x. by apply Hstep.
Qed.

Lemma not_in_pairs {A} (k x y : A) (l : list A) : k ∉ x :: y :: l → x ≠ k ∧ k ∉ l.
Proof. rewrite !not_elem_of_cons. intros (? & ? & ?). split; [congruence|done]. Qed.

Lemma even_count (n : nat) : (Z.of_nat n mod 2 =? 0)%Z = Nat.even n.
Proof.
  rewrite <- Zeven_mod.
  enough (Z.even (Z.of_nat n) = Nat.even n ∧ Z.even (Z.of_nat (S n)) = Nat.even (S n)) by tauto.
  induction n as [|n [IH1 IH2]]; [by split|]. split; [done|].
  rewrite !Nat2Z.inj_succ, Z.even_succ_succ. exact IH1.
Qed.

Lemma paramsLoop_even (attr : list string) :
  ∀ q : Values, Nat.even (length attr) = true →
    ∃ q', paramsLoop q attr = Some q' ∧ ∀ key, key ∉ attr → q' !! key = q !! key.
Proof.
  induction attr as [|x|key value rest IH] using list_pairs_ind; intros q Heven.
  - by exists q.
  - discriminate.
  - cbn [paramsLoop].
    destruct (negb _);
      [destruct (IH (Values_Set q key value)) as (q' & Hq' & Hframe)
      |destruct (IH (Values_Add q key value)) as (q' & Hq' & Hframe)]; try done;
      (exists q'; split; [done|]); intros k Hk;
      apply not_in_pairs in Hk as [Hne Hk];
      (rewrite Hframe by done);
      unfold Values_Set, Values_Add; by apply lookup_insert_ne.
Qed.

(** An even number of arguments: [Params] never fails.  The descriptor is
    as before, the query is rewritten, and a key that is not among the
    arguments keeps its values. *)
Theorem Params_even_count (r : Request) (w : World) (l : loc) (x : URL) (attr : list string) :
  cancelled r = false → u r = Some l → urls w !! l = Some x →
  Nat.even (length attr) = true →
  ∃ q', Params r attr w = Ret r (withQuery w l x q') ∧
        ∀ key, key ∉ attr → q' !! key = url_ParseQuery (RawQuery x) !! key.
Proof.
  intros Hc Hu Hx Heven.
  destruct (paramsLoop_even attr (url_ParseQuery (RawQuery x)) Heven) as (q' & Hq' & Hframe).
  exists q'. split; [|done].
  unfold Params, loadURL, storeURL, withQuery. rewrite Hc, Hu. unfold_monad. cbn.
  rewrite Hx. cbn. rewrite even_count, Heven. cbn [negb]. by rewrite Hq'.
Qed.

(** An odd number of arguments: [Params] latches the error
    [incompatible query parameter], cancels the descriptor and leaves the
    address and the rest of the store as they were. *)
Theorem Params_odd_count (r : Request) (w : World) (l : loc) (x : URL) (attr : list string) :
  cancelled r = false → u r = Some l → urls w !! l = Some x →
  Nat.odd (length attr) = true →
  ∃ r', Params r attr w = Ret r' w ∧
        err r' = Some oddParams ∧ cancelled r' = true ∧
        ctx_cause (ctx r') = Some oddParams ∧
        u r' = u r ∧ headers r' = headers r ∧ method r' = method r ∧ body r' = body r.
Proof.
  intros Hc Hu Hx Hodd.
  assert (Hctx : ctx_err (ctx r) = None).
  { unfold cancelled in Hc. apply bool_decide_eq_false in Hc.
    destruct (ctx_err (ctx r)); [|done]. by destruct Hc. }
  eexists. split.
  - unfold Params, loadURL. rewrite Hc, Hu. unfold_monad. cbn. rewrite Hx. cbn.
    rewrite even_count. rewrite <- Nat.negb_odd, Hodd. reflexivity.
  - unfold cancelled, contextErr, cancelWithCause. cbn. rewrite Hctx. cbn.
    repeat split; try done.
Qed.

Lemma headersLoop_app (a b : list string) :
  ∀ h : Header, Nat.even (length a) = true →
    headersLoop h (a ++ b) = headersLoop (headersLoop h a) b.
Proof.
  induction a as [|x|key value rest IH] using list_pairs_ind; intros h Heven.
  - done.
  - discriminate.
  - change ((key :: value :: rest) ++ b)%list with (key :: value :: (rest ++ b))%list.
    cbn [headersLoop]. by apply IH.
Qed.

Lemma headersLoop_grows (attr : list string) :
  ∀ h : Header,
    (∀ key, ∃ added, headersLoop h attr !!! key = (h !!! key ++ added)%list) ∧
    (∀ key, key ∉ attr → headersLoop h attr !! key = h !! key).
Proof.
  induction attr as [|x|key value rest IH] using list_pairs_ind; intros h.
  - split; [intros key; exists []; by rewrite app_nil_r | done].
  - cbn [headersLoop]. split.
    + intros key. destruct (decide (x = key)) as [->|Hne].
      * exists [""]. by rewrite lookup_total_insert_eq.
      * exists []. by rewrite lookup_total_insert_ne, app_nil_r.
    + intros key Hk. apply lookup_insert_ne. apply not_elem_of_cons in Hk as [Hk _]. congruence.
  - cbn [headersLoop].
    destruct (IH (<[key := (h !!! key ++ [value])%list]> h)) as [Hgrow Hframe]. split.
    + intros k. destruct (Hgrow k) as (added & ->).
      destruct (decide (key = k)) as [->|Hne].
      * exists (value :: added). rewrite lookup_total_insert_eq. by rewrite <- app_assoc.
      * exists added. by rewrite lookup_total_insert_ne.
    + intros k Hk. apply not_in_pairs in Hk as [Hne Hk].
      rewrite Hframe by done. by apply lookup_insert_ne.
Qed.

Lemma Headers_run (r : Request) (w : World) (l : loc) (h : Header) (attr : list string) :
  cancelled r = false → headers r = Some l → hdrs w !! l = Some h →
  Headers r attr w = Ret r (withHeaders w l (headersLoop h attr)).
Proof.
  intros Hc Hl Hh. unfold Headers, loadHeader, storeHeader, withHeaders.
  rewrite Hc, Hl. destruct attr as [|x rest].
  - unfold_monad. cbn. rewrite insert_id by done. by destruct w.
  - unfold_monad. by rewrite Hh.
Qed.

(** [Headers] never fails and never drops a value: the descriptor is as
    before, every key keeps the values it had and gets the new ones behind
    them, a key that is not among the arguments is untouched, and a pair
    [key, value] puts [value] behind the values of [key]. *)
Theorem Headers_only_appends (r : Request) (w : World) (l : loc) (h : Header)
    (attr : list string) :
  cancelled r = false → headers r = Some l → hdrs w !! l = Some h →
  ∃ h', Headers r attr w = Ret r (withHeaders w l h') ∧
        (∀ key, ∃ added, h' !!! key = (h !!! key ++ added)%list) ∧
        (∀ key, key ∉ attr → h' !! key = h !! key) ∧
        (∀ key value, attr = [key; value] → h' !! key = Some (h !!! key ++ [value])%list).
Proof.
  intros Hc Hl Hh. exists (headersLoop h attr).
  split; [by apply Headers_run|].
  destruct (headersLoop_grows attr h) as [Hgrow Hframe].
  split; [done|]. split; [done|].
  intros key value ->. cbn. apply lookup_insert_eq.
Qed.

(** Two calls of [Headers] are one call with the arguments put together,
    when the first call has an even number of them. *)
Theorem Headers_compose (r : Request) (w : World) (l : loc) (h : Header) (a b : list string) :
  cancelled r = false → headers r = Some l → hdrs w !! l = Some h →
  Nat.even (length a) = true →
  (r' ← Headers r a; Headers r' b) w = Headers r (a ++ b) w.
Proof.
  intros Hc Hl Hh Heven.
  rewrite (Headers_run r w l h (a ++ b)) by done.
  unfold mbind, M_bind, bind. rewrite (Headers_run r w l h a) by done.
  rewrite (Headers_run r _ l (headersLoop h a) b);
    [|done|done|unfold withHeaders; cbn; apply lookup_insert_eq].
  rewrite headersLoop_app by done.
  unfold withHeaders. cbn. by rewrite insert_insert_eq.
Qed.

End ConfigurationExtras.

Section BodyExtras.
Context `{Externals}.

Lemma not_cancelled (r : Request) : cancelled r = false → ctx_err (ctx r) = None.
Proof.
  unfold cancelled. intros Hc. apply bool_decide_eq_false in Hc.
  destruct (ctx_err (ctx r)); [|done]. by destruct Hc.
Qed.

(** [BodyJson] with a payload that cannot be marshalled: the error is
    latched and the descriptor cancelled, the body is empty and the header
    [Content-Type] is not added, for the guard of [Headers] already sees the
    error; the method is POST all the same. *)
Theorem BodyJson_marshal_failure (r : Request) (dt : Payload) (e : error) (w : World) :
  cancelled r = false → json_Marshal dt = inl e →
  ∃ r', BodyJson r dt w = Ret r' w ∧
        err r' = Some e ∧ cancelled r' = true ∧ ctx_cause (ctx r') = Some e ∧
        body r' = [] ∧ method r' = MethodPost ∧ headers r' = headers r.
Proof.
  intros Hc Hm. pose proof (not_cancelled r Hc) as Hctx.
  unfold BodyJson. rewrite Hc, Hm. cbn.
  unfold Headers, cancelled, cancelWithCause. cbn. rewrite Hctx. cbn.
  eexists. split; [reflexivity|]. by cbn.
Qed.

(** [BodyJson] with a payload that is marshalled: the bytes are the body,
    the method is POST, [r.err] is nil whatever it was, and
    [application/json] is put behind the values [Content-Type] already
    has. *)
Theorem BodyJson_success (r : Request) (dt : Payload) (b : list byte) (w : World)
    (l : loc) (h : Header) :
  cancelled r = false → json_Marshal dt = inr b →
  headers r = Some l → hdrs w !! l = Some h →
  ∃ r', BodyJson r dt w =
        Ret r' (withHeaders w l
                  (<["Content-Type" := (h !!! "Content-Type" ++ ["application/json"])%list]> h)) ∧
        body r' = b ∧ method r' = MethodPost ∧ err r' = None ∧ cancelled r' = false ∧
        headers r' = headers r ∧ u r' = u r ∧ cookie r' = cookie r.
Proof.
  intros Hc Hm Hl Hh.
  unfold BodyJson. rewrite Hc, Hm. cbn [err set_err set_body contextErr].
  unfold mbind, M_bind, bind.
  rewrite (Headers_run _ w l h); [|done|done|done].
  eexists. split; [reflexivity|]. by cbn.
Qed.

(** The clone points to the address of the original: a path set through
    the clone is the path of the original. *)
Theorem Clone_shares_the_address (r c : Request) (w : World) (l : loc) (x : URL)
    (path : string) :
  Clone r = Ok c → cancelled r = false → u r = Some l → urls w !! l = Some x →
  ∃ w', Path_ c path w = Ret c w' ∧
        addressOf r w' = Some (mkURL (Scheme x) (Host x) path (RawQuery x)).
Proof.
  intros Hclone Hc Hu Hx.
  assert (Hsame : u c = u r ∧ cancelled c = cancelled r).
  { unfold Clone in Hclone.
    destruct (finalReq r), (data r), (dataReader r); by simplify_eq. }
  destruct Hsame as [Huc Hcc].
  eexists. split.
  - unfold Path_, loadURL, storeURL. rewrite Hcc, Hc, Huc, Hu. unfold_monad. cbn.
    rewrite Hx. reflexivity.
  - unfold addressOf. rewrite Hu. cbn. apply lookup_insert_eq.
Qed.

(** [New] with a link that parses and a context that is not done: the
    descriptor has no error, the method GET, the policy that never
    retries, no request yet, the two default headers in a new map and the
    parsed address. *)
Theorem New_descriptor (cl : Client) (T : GoType) (c : Context) (link : string) (x : URL)
    (w : World) :
  url_Parse link = inr x → ctx_err c = None →
  ∃ r w', New cl T c link w = Ret r w' ∧
          err r = None ∧ cancelled r = false ∧ method r = MethodGet ∧
          retryOptions r = emptyOptions ∧ finalReq r = None ∧ body r = [] ∧
          isJson r = checkType T ∧ resultType r = T ∧
          headerValues r w' "Accept-Encoding" = Some ["deflate,gzip,zstd,br"] ∧
          headerValues r w' "User-Agent" = Some ["SomniSom-goreq/1.0"] ∧
          (∀ key, key ≠ "Accept-Encoding" → key ≠ "User-Agent" → headerValues r w' key = None) ∧
          addressOf r w' = Some x ∧
          trace w' = trace w.
Proof.
  intros Hp Hc. unfold New, allocHeader, allocURL. unfold_monad. rewrite Hp.
  eexists _, _. split; [reflexivity|]. cbn.
  unfold cancelled, headerValues, addressOf. cbn. rewrite Hc.
  rewrite !lookup_insert_eq. cbn.
  repeat split; try done.
  intros key H1 H2. rewrite lookup_insert_ne by done. by rewrite lookup_singleton_ne.
Qed.

(** [New] with a link that does not parse: the error of the parser is
    latched, the descriptor is cancelled and has no address, and [Fetch]
    returns that error without touching the world. *)
Theorem New_malformed_link (cl : Client) (T : GoType) (c : Context) (link : string)
    (e : error) (w : World) :
  url_Parse link = inl e →
  ∃ r w', New cl T c link w = Ret r w' ∧
          err r = Some e ∧ u r = None ∧ cancelled r = true ∧
          ∀ fuel, Fetch fuel r w' = Ret (r, zeroValue T, Some e) w'.
Proof.
  intros Hp. unfold New, allocHeader. unfold_monad. rewrite Hp.
  eexists _, _. split; [reflexivity|]. cbn.
  split; [done|]. split; [done|]. split; [|done].
  unfold cancelled, cancelWithCause. cbn. apply bool_decide_eq_true.
  destruct (ctx_err c) eqn:E; cbn; rewrite ?E; eauto.
Qed.

End BodyExtras.

(** * Further properties of the engine *)

Section EngineExtras.
Context `{Externals}.

(** [makeRequest] reads the store and does not write it. *)
Lemma makeRequest_reads_only (r : Request) (w : World) : worldOf (makeRequest r w) = w.
Proof.
  unfold makeRequest, buildFinalReq, newFinalReq, fixMethod, readHeaders, loadURL, lift.
  unfold_monad.
  repeat (case_match; simplify_eq; cbn in *; try done).
Qed.

(** The retry loop adds its sleeps to the trace and leaves the store. *)
Lemma retryLoop_store (fuel : nat) (r : Request) (resp : option Response) :
  ∀ (cnt : Z) (w : World),
    let w' := worldOf (retryLoop fuel r resp cnt w) in
    hdrs w' = hdrs w ∧ urls w' = urls w ∧ bufs w' = bufs w ∧ next w' = next w.
Proof.
  induction fuel as [|fuel IH]; intros cnt w; [done|]. cbn.
  destruct (Repeat _ _ _); [|done].
  destruct (_ || _); [done|].
  unfold policySleep, emit. unfold_monad. cbn. fold (addEvent w (EvSleep cnt)).
  destruct (Sleep _ cnt) as [[]|]; cbn [lift negb worldOf]; unfold_monad; cbn [worldOf negb];
    [apply (IH _ (addEvent w (EvSleep cnt)))|done|done].
Qed.

Lemma tee_run (r : Request) (p : list byte) (w : World) :
  ∃ w', tee r p w = Ret tt w' ∧ trace w' = trace w ∧
        (∀ l, retBody r = Some l → bufs w' !!! l = (bufs w !!! l ++ p)%list) ∧
        (∀ l, retBody r ≠ Some l → bufs w' !! l = bufs w !! l).
Proof.
  unfold tee, writeBuffer. destruct (retBody r) as [l|], p as [|b p]; unfold_monad;
    eexists; (split; [reflexivity|]); cbn; (split; [done|]); split; intros l' Hl; simplify_eq;
    rewrite ?app_nil_r, ?lookup_total_insert_eq; try done.
  apply lookup_insert_ne. congruence.
Qed.

(** [Fetch] up to the decoding, when the transport answers and the retry
    loop comes to its end: the store is as it was. *)
Lemma Fetch_to_decode (fuel : nat) (r r1 : Request) (w w1 : World) (cl : Client)
    (req : HttpRequest) (resp : Response) :
  err r = None → ctx_err (ctx r) = None →
  makeRequest r w = Ret (r1, None) w1 →
  client r1 = Some cl → finalReq r1 = Some req →
  Do cl (transportCalls w1) req = DoOk resp →
  endsWithin (retryOptions r1) resp fuel →
  ∃ w2, Fetch fuel r w = decodeResponse (set_err r1 None) resp w2 ∧
        bufs w2 = bufs w ∧ transportCalls w2 = (transportCalls w + 1)%nat.
Proof.
  intros He Hc Hm Hcl Hreq Hdo Hends.
  rewrite (Fetch_after_request fuel r r1 w w1 cl req) by done. rewrite Hdo. cbn [fst snd].
  destruct (retryLoop_ends fuel (set_err r1 None) resp (addEvent w1 (EvDo req)))
    as (w2 & Hloop & Hcalls); [done|done|].
  pose proof (retryLoop_store fuel (set_err r1 None) (Some resp) 1 (addEvent w1 (EvDo req)))
    as Hstore.
  rewrite Hloop in Hstore. cbn in Hstore. destruct Hstore as (_ & _ & Hbufs & _).
  pose proof (makeRequest_reads_only r w) as Hw. rewrite Hm in Hw. cbn in Hw. subst w1.
  exists w2. unfold mbind, M_bind, bind. rewrite Hloop. split; [done|]. split; [done|].
  rewrite Hcalls, transportCalls_addEvent. done.
Qed.

Lemma any_plain (T : GoType) (dt : list byte) :
  checkType T = false →
  any (TPtr T) (zeroValue T) dt = Ok (plainValue T dt, None).
Proof. destruct T as [| | | |[]|]; cbn; done. Qed.

(** A 2xx answer for a destination without JSON, with a body that is read
    to its end: [Fetch] returns no error and the bytes for a byte
    destination, the text for a text destination and the zero value for
    the others; the descriptor keeps the response and takes its cookies in
    place of its own, and the bytes read are put behind the content of the
    tee buffer. *)
Theorem Fetch_plain_success
    (fuel : nat) (r r1 : Request) (w w1 : World) (cl : Client) (req : HttpRequest)
    (resp : Response) (reader : Reader) :
  err r = None → ctx_err (ctx r) = None →
  makeRequest r w = Ret (r1, None) w1 →
  client r1 = Some cl → finalReq r1 = Some req →
  Do cl (transportCalls w1) req = DoOk resp →
  badStatus resp = false →
  endsWithin (retryOptions r1) resp fuel →
  decompress resp = inr reader →
  isJson r1 = false → checkType (resultType r1) = false →
  rd_err reader = None →
  ∃ r' w',
    Fetch fuel r w = Ret (r', plainValue (resultType r1) (rd_data reader), None) w' ∧
    err r' = None ∧ ctx r' = ctx r1 ∧ lastResponse r' = Some resp ∧
    cookie r' = readSetCookies (RespHeader resp) ∧
    transportCalls w' = (transportCalls w + 1)%nat ∧
    (∀ l, retBody r1 = Some l → bufs w' !!! l = (bufs w !!! l ++ rd_data reader)%list).
Proof.
  intros He Hc Hm Hcl Hreq Hdo Hgood Hends Hdec Hjson Hplain Hrd.
  destruct (Fetch_to_decode fuel r r1 w w1 cl req resp) as (w2 & -> & Hbufs & Hcalls); try done.
  unfold decodeResponse. cbn -[any]. rewrite Hdec, Hjson.
  destruct (tee_run (set_cookie (set_lastResponse (set_err r1 None) (Some resp))
                       (readSetCookies (RespHeader resp))) (rd_data reader) w2)
    as (w3 & Ht & Htrace & Hbuf & _).
  unfold mbind, M_bind, bind. rewrite Ht. cbn -[any]. rewrite Hrd. cbn -[any].
  rewrite any_plain by done. cbn. unfold checkStatus. rewrite Hgood. cbn.
  eexists _, _. split; [reflexivity|]. cbn.
  destruct (same_trace _ _ Htrace) as [-> _].
  repeat split; try done.
  intros l Hl. rewrite <- Hbufs. by apply Hbuf.
Qed.

(** A 2xx answer for a JSON destination: [Fetch] returns the value and the
    error of the decoder as they are.  An error of the decoder is kept in
    [r.err] and does not cancel the context. *)
Theorem Fetch_json_success
    (fuel : nat) (r r1 : Request) (w w1 : World) (cl : Client) (req : HttpRequest)
    (resp : Response) (reader : Reader) :
  err r = None → ctx_err (ctx r) = None →
  makeRequest r w = Ret (r1, None) w1 →
  client r1 = Some cl → finalReq r1 = Some req →
  Do cl (transportCalls w1) req = DoOk resp →
  badStatus resp = false →
  endsWithin (retryOptions r1) resp fuel →
  decompress resp = inr reader →
  isJson r1 = true →
  ∃ r' w',
    Fetch fuel r w =
    Ret (r', (json_Decode (resultType r1) reader).1.1,
             (json_Decode (resultType r1) reader).1.2) w' ∧
    err r' = (json_Decode (resultType r1) reader).1.2 ∧ ctx r' = ctx r1 ∧
    lastResponse r' = Some resp ∧
    cookie r' = readSetCookies (RespHeader resp) ∧
    (∀ l, retBody r1 = Some l →
          bufs w' !!! l = (bufs w !!! l ++ (json_Decode (resultType r1) reader).2)%list).
Proof.
  intros He Hc Hm Hcl Hreq Hdo Hgood Hends Hdec Hjson.
  destruct (Fetch_to_decode fuel r r1 w w1 cl req resp) as (w2 & -> & Hbufs & Hcalls); try done.
  unfold decodeResponse. cbn. rewrite Hdec, Hjson.
  destruct (json_Decode (resultType r1) reader) as [[v e] p].
  destruct (tee_run (set_cookie (set_lastResponse (set_err r1 None) (Some resp))
                       (readSetCookies (RespHeader resp))) p w2)
    as (w3 & Ht & Htrace & Hbuf & _).
  unfold mbind, M_bind, bind. rewrite Ht. unfold checkStatus. rewrite Hgood. cbn.
  eexists _, _. split; [reflexivity|]. cbn.
  repeat split; try done.
  intros l Hl. rewrite <- Hbufs. by apply Hbuf.
Qed.

(** An error of the transport: [Fetch] returns it with the zero value
    after the one call, without sleeping, and keeps it in [r.err]; the last
    response is not changed.  The context is cancelled only when the
    policy asks to repeat the attempt. *)
Theorem Fetch_transport_error
    (fuel : nat) (r r1 : Request) (w w1 : World) (cl : Client) (req : HttpRequest)
    (partial : option Response) (e : error) :
  err r = None → ctx_err (ctx r) = None →
  makeRequest r w = Ret (r1, None) w1 →
  client r1 = Some cl → finalReq r1 = Some req →
  Do cl (transportCalls w1) req = DoErr partial e →
  ∃ r',
    Fetch (S fuel) r w = Ret (r', zeroValue (resultType r), Some e) (addEvent w (EvDo req)) ∧
    err r' = Some e ∧ lastResponse r' = lastResponse r1 ∧
    ctx r' = (if Repeat (retryOptions r1) None (Some e)
              then cancelWithCause (ctx r1) e else ctx r1).
Proof.
  intros He Hc Hm Hcl Hreq Hdo.
  pose proof (makeRequest_reads_only r w) as Hw. rewrite Hm in Hw. cbn in Hw. subst w1.
  rewrite (Fetch_after_request (S fuel) r r1 w w cl req) by done. rewrite Hdo. cbn [fst snd].
  unfold mbind, M_bind, bind. cbn [retryLoop]. cbn [err set_err retryOptions].
  destruct (Repeat (retryOptions r1) None (Some e)); cbn.
  - eexists. split; [reflexivity|]. by cbn.
  - eexists. split; [reflexivity|]. by cbn.
Qed.

(** A policy that never asks to repeat a response that came without an
    error: [Fetch] never sleeps and always comes to an end. *)
Lemma Fetch_without_sleep (fuel : nat) (r : Request) (w : World) :
  (∀ resp, Repeat (retryOptions r) (Some resp) None = false) →
  sleeps (worldOf (Fetch (S fuel) r w)) = sleeps w ∧
  (∀ w', Fetch (S fuel) r w ≠ OutOfFuel w').
Proof.
  intros Hpol.
  destruct (err r) as [e0|] eqn:He; [unfold Fetch; rewrite He; by cbn|].
  destruct (ctx_err (ctx r)) as [e0|] eqn:Hc; [unfold Fetch; rewrite He, Hc; by cbn|].
  destruct (quiet_makeRequest r w) as (Ht & Hp & Hf).
  destruct (makeRequest r w) as [[r1 [e|]] w1|msg w1|w1] eqn:Hm; cbn in Ht.
  - unfold Fetch. rewrite He, Hc. unfold mbind, M_bind, bind. rewrite Hm. cbn.
    by destruct (same_trace w w1 Ht) as [_ ->].
  - destruct (makeRequest_ok r r1 w w1 Hm) as ([req Hreq] & He1 & Hpol1 & _).
    destruct (same_trace w w1 Ht) as [_ Hsleeps].
    destruct (client r1) as [cl|] eqn:Hcl.
    + rewrite (Fetch_after_request (S fuel) r r1 w w1 cl req) by done.
      assert (Hs2 : sleeps (addEvent w1 (EvDo req)) = sleeps w).
      { rewrite sleeps_addEvent, Hsleeps. by rewrite app_nil_r. }
      unfold mbind, M_bind, bind.
      destruct (Do cl (transportCalls w1) req) as [resp|partial e]; cbn [fst snd].
      * rewrite retryLoop_declined by (cbn; by rewrite Hpol1, Hpol).
        destruct (quiet_decodeResponse (set_err r1 None) resp (addEvent w1 (EvDo req)))
          as (Htd & _ & Hfd).
        destruct (same_trace _ _ Htd) as [_ ->]. by rewrite Hs2.
      * cbn [retryLoop]. cbn [err set_err retryOptions].
        destruct (Repeat (retryOptions r1) None (Some e));
          [rewrite bool_decide_eq_true_2 by eauto|]; cbn [orb];
          unfold_monad; cbn [worldOf]; by rewrite Hs2.
    + unfold Fetch. rewrite He, Hc. unfold mbind, M_bind, bind. rewrite Hm.
      unfold request. rewrite Hcl. cbn. by rewrite Hsleeps.
  - unfold Fetch. rewrite He, Hc. unfold mbind, M_bind, bind. rewrite Hm. cbn.
    by destruct (same_trace w w1 Ht) as [_ ->].
  - by destruct (Hf w1).
Qed.

(** With [DefaultRetryOptions] as the policy, whatever its count and its
    lists, [Fetch] never calls [Sleep]: a response comes with a nil error,
    for which [Repeat] answers false, and on an error of the transport the
    loop returns at once. *)
Theorem Fetch_default_policy_never_sleeps (fuel : nat) (d : DefaultRetryOptions)
    (r : Request) (w : World) :
  retryOptions r = defaultRetryOptions d →
  sleeps (worldOf (Fetch (S fuel) r w)) = sleeps w ∧
  (∀ w', Fetch (S fuel) r w ≠ OutOfFuel w').
Proof.
  intros Hpol. apply Fetch_without_sleep. intros resp. by rewrite Hpol.
Qed.

(** [DefaultRetryOptions.Sleep] lets the counters from 1 to [Count]
    through and refuses the next one, when [Count] is below the largest
    [int], so that the counter [Count + 1] is an [int]; with a negative
    [Count] it refuses the first.  The number of sleeps let through is then
    within the bound that [endsWithin] asks for. *)
Theorem DefaultRetryOptions_stopsAfter (d : DefaultRetryOptions) :
  (Count d < int_max)%Z →
  stopsAfter (defaultRetryOptions d) (Z.to_nat (Count d)) ∧
  (Z.of_nat (Z.to_nat (Count d)) < int_max)%Z.
Proof.
  intros Hmax. split; [split|].
  - intros k Hk. cbn. unfold DefaultRetryOptions_Sleep.
    destruct (Z.gtb_spec (1 + Z.of_nat k) (Count d)); [lia|done].
  - cbn. unfold DefaultRetryOptions_Sleep.
    destruct (Z.gtb_spec (1 + Z.of_nat (Z.to_nat (Count d))) (Count d)); [done|lia].
  - unfold int_max in *. lia.
Qed.

Lemma retryLoop_forever (r : Request) (resp : Response) (fuel : nat) :
  ∀ (cnt : Z) (w : World),
    err r = None →
    Repeat (retryOptions r) (Some resp) None = true →
    (∀ counter, Sleep (retryOptions r) counter = Ok true) →
    ∃ w', retryLoop fuel r (Some resp) cnt w = OutOfFuel w' ∧
          length (sleeps w') = (length (sleeps w) + fuel)%nat.
Proof.
  induction fuel as [|fuel IH]; intros cnt w He Hr Hs.
  - exists w. split; [done|lia].
  - cbn [retryLoop]. rewrite He, Hr.
    rewrite bool_decide_eq_false_2 by (by intros [? ?]).
    rewrite bool_decide_eq_false_2 by done. cbn [orb].
    unfold policySleep, emit. unfold_monad. cbn. fold (addEvent w (EvSleep cnt)).
    rewrite Hs. cbn [lift negb]. unfold_monad. cbn [negb].
    destruct (IH (wrapInt (cnt + 1)) (addEvent w (EvSleep cnt)) He Hr Hs) as (w' & Hl & Hlen).
    exists w'. split; [exact Hl|]. rewrite Hlen, sleeps_addEvent, length_app. cbn. lia.
Qed.

(** The engine has no bound of its own: with a policy that asks to repeat
    the response and whose [Sleep] always answers true, [Fetch] does not
    come to an end, whatever the fuel; it spends it all on sleeping, after
    the one call of the transport. *)
Theorem Fetch_unbounded_policy
    (fuel : nat) (r r1 : Request) (w w1 : World) (cl : Client) (req : HttpRequest)
    (resp : Response) :
  err r = None → ctx_err (ctx r) = None →
  makeRequest r w = Ret (r1, None) w1 →
  client r1 = Some cl → finalReq r1 = Some req →
  Do cl (transportCalls w1) req = DoOk resp →
  Repeat (retryOptions r1) (Some resp) None = true →
  (∀ counter, Sleep (retryOptions r1) counter = Ok true) →
  ∃ w', Fetch fuel r w = OutOfFuel w' ∧
        length (sleeps w') = (length (sleeps w) + fuel)%nat ∧
        transportCalls w' = (transportCalls w + 1)%nat.
Proof.
  intros He Hc Hm Hcl Hreq Hdo Hrep Hsleep.
  rewrite (Fetch_after_request fuel r r1 w w1 cl req) by done. rewrite Hdo. cbn [fst snd].
  destruct (retryLoop_forever (set_err r1 None) resp fuel 1 (addEvent w1 (EvDo req)))
    as (w' & Hloop & Hlen); try done.
  pose proof (retryLoop_no_transport fuel (set_err r1 None) (Some resp) 1
                (addEvent w1 (EvDo req))) as Hcalls.
  rewrite Hloop in Hcalls. cbn [worldOf] in Hcalls.
  destruct (quiet_makeRequest r w) as (Ht & _ & _). rewrite Hm in Ht. cbn in Ht.
  destruct (same_trace _ _ Ht) as [Hc1 Hs1].
  exists w'. unfold mbind, M_bind, bind. rewrite Hloop. split; [done|].
  rewrite Hlen, Hcalls, sleeps_addEvent, transportCalls_addEvent, Hc1, Hs1, length_app.
  cbn. split; lia.
Qed.

(** An encoding that is none of [zstd], [br] and [gzip], such as the
    [deflate] that [New] announces, or no encoding at all: the body is read
    as it is. *)
Theorem decompress_passes_through (resp : Response) :
  firstValue (RespHeader resp) "Content-Encoding" ∉ ["zstd"; "br"; "gzip"] →
  decompress resp = inr (Body resp).
Proof.
  intros Hnot. unfold decompress.
  rewrite !not_elem_of_cons in Hnot. destruct Hnot as (H1 & H2 & H3 & _).
  apply String.eqb_neq in H1, H2, H3. by rewrite H1, H2, H3.
Qed.

Lemma addCookies_keeps (cs : list Cookie) :
  ∀ req, Method (fold_left AddCookie cs req) = Method req ∧
         ReqBody (fold_left AddCookie cs req) = ReqBody req ∧
         ReqURL (fold_left AddCookie cs req) = ReqURL req.
Proof.
  induction cs as [|c cs IH]; intros req; [done|].
  cbn [fold_left]. destruct (IH (AddCookie req c)) as (-> & -> & ->). done.
Qed.

(** The wire request of a successful [makeRequest]: its method is the one
    of the descriptor (GET for an empty one) and is a valid token, every
    header of the descriptor is on it with the values of the descriptor,
    whatever [http.NewRequest], the cookies or the multipart builder put
    under that key, a body that is not empty is sent as it is, and without
    body and builder nothing is sent.  The store is not written. *)
Theorem makeRequest_wire (r r1 : Request) (w w1 : World) (req : HttpRequest) :
  makeRequest r w = Ret (r1, None) w1 → finalReq r1 = Some req →
  w1 = w ∧
  Method req = (if String.eqb (method r) "" then MethodGet else method r) ∧
  validMethod (Method req) = true ∧
  (∀ key vs, headerValues r w key = Some vs → ReqHeader req !! key = Some vs) ∧
  (body r ≠ [] → ReqBody req = Some (body r)) ∧
  (body r = [] → multipart r = None → ReqBody req = None).
Proof.
  intros Hm Hreq.
  pose proof (makeRequest_reads_only r w) as Hw. rewrite Hm in Hw. cbn in Hw. subst w1.
  split; [done|]. revert Hm.
  unfold makeRequest, buildFinalReq, newFinalReq, fixMethod, readHeaders, loadURL, lift,
    http_NewRequest, headerValues.
  unfold_monad. intros Hm.
  repeat (case_match; simplify_eq; cbn -[validMethod String.eqb] in * ); try done.
  all: repeat match goal with
       | |- context [fold_left AddCookie ?cs ?q] =>
           destruct (addCookies_keeps cs q) as (-> & -> & _)
       end; cbn -[validMethod String.eqb].
  all: repeat split; try done.
  all: try (by apply negb_false_iff).
  all: try (intros key vs Hk; apply lookup_union_Some_l;
            by match goal with
               | |- context [headers ?r] =>
                   destruct (headers r) as [hl|]; cbn in *; [destruct (hdrs w !! hl)|]
               end).
  all: try (intros Hb; rewrite Hb in *; done).
  all: intros Hb; match goal with H : context [body ?r] |- _ => by destruct (body r) end.
Qed.

End EngineExtras.

(** * The multipart builder, [any] and [Dump] *)

Section BuilderExtras.
Context `{Externals} `{Collaborators}.

(** [any] on a pointer to a destination that [checkType] sends past JSON:
    no panic and no error; bytes and text take the body, every other
    destination, [int] among them, is left as it was. *)
Theorem any_without_json (T : GoType) (t : GoValue) (dt : list byte) :
  checkType T = false →
  any (TPtr T) t dt =
  Ok (match T with
      | TBytes => VBytes dt
      | TString => VString (string_of_list_byte dt)
      | _ => t
      end, None).
Proof. destruct T as [| | | |[]|]; cbn; done. Qed.

(** A file that cannot be read: [AddFile] writes nothing and keeps the
    error as the cause of the builder's context, whose [Err] is the plain
    cancellation; a context that was done before stays as it was. *)
Theorem AddFile_unreadable (boundary : string) (m : Multipart) (fieldName filename : string)
    (e : error) :
  os_ReadFile filename = inl e →
  ∃ m' c',
    AddFile boundary m fieldName filename = Ok m' ∧
    wr m' = wr (initBody boundary m) ∧ mbody m' = mbody (initBody boundary m) ∧
    Ctx m' = Some c' ∧ is_Some (ctx_err c') ∧
    ((∀ c, Ctx m = Some c → ctx_err c = None) →
       ctx_err c' = Some context_Canceled ∧ ctx_cause c' = Some e) ∧
    (∀ c, Ctx m = Some c → is_Some (ctx_err c) → c' = c).
Proof.
  intros Hread. unfold AddFile. rewrite Hread.
  set (m0 := initBody boundary m).
  assert (HC : ∃ c0, Ctx m0 = Some c0 ∧ (∀ c, Ctx m = Some c → c0 = c) ∧
                     (Ctx m = None → c0 = context_Background)).
  { unfold m0, initBody.
    destruct m as [[c|] [b|] [buf|]]; cbn; eexists; (split; [reflexivity|]);
      split; intros; by simplify_eq. }
  destruct HC as (c0 & HC & Hsame & Hnone).
  unfold Multipart_contextErr. rewrite HC.
  exists (mkMultipart (Some (cancelWithCause c0 e)) (wr m0) (mbody m0)), (cancelWithCause c0 e).
  split; [done|]. cbn. split; [done|]. split; [done|]. split; [done|].
  unfold cancelWithCause. destruct (ctx_err c0) as [e0|] eqn:Hc0.
  - rewrite Hc0. split; [by eexists|]. split.
    + intros Hall. destruct (Ctx m) as [c|] eqn:HCm.
      * rewrite (Hsame c eq_refl) in Hc0. by rewrite (Hall c eq_refl) in Hc0.
      * by rewrite (Hnone eq_refl) in Hc0.
    + intros c Hc _. by apply Hsame.
  - cbn. split; [by eexists|]. split; [done|].
    intros c Hc [e' He']. rewrite (Hsame c Hc) in Hc0. congruence.
Qed.

(** The builder is used once: [make] hands out the parts with the closing
    boundary and empties the buffer, and a second [make] hands out the
    closing boundary alone, under the same content type. *)
Theorem make_single_use (m m' : Multipart) (ctt : string) (dt : list byte) (boundary : string) :
  Multipart_make m = Ok (ctt, dt, m') → wr m = Some boundary →
  ctt = "multipart/form-data; boundary=" +:+ boundary ∧
  mbody m' = Some [] ∧ Ctx m' = Ctx m ∧
  Multipart_make m' =
  Ok (ctt, list_byte_of_string (CRLF +:+ "--" +:+ boundary +:+ "--" +:+ CRLF), m').
Proof.
  unfold Multipart_make. intros Hmake Hwr. rewrite Hwr in Hmake.
  destruct (mbody m) as [buf|]; [|done]. simplify_eq. cbn. rewrite ?Hwr. done.
Qed.

(** A file part and a field on a new builder, then [make]: the payload is
    the two parts, each behind its boundary line, the second one after a
    line break, and the closing boundary.  The boundary drawn for the
    second call is not used: the writer is there. *)
Theorem builder_payload (boundary other : string) (c : option Context)
    (fieldName filename key value : string) (dt : list byte) :
  ∃ m1 m2 m3,
    AddFileData boundary (mkMultipart c None None) fieldName filename dt = Ok m1 ∧
    Param other m1 key value = Ok m2 ∧
    Multipart_make m2 =
    Ok ("multipart/form-data; boundary=" +:+ boundary,
        (list_byte_of_string ("--" +:+ boundary +:+ CRLF)
         ++ formFileHeader fieldName filename ++ dt
         ++ list_byte_of_string (CRLF +:+ "--" +:+ boundary +:+ CRLF)
         ++ formFieldHeader key ++ list_byte_of_string value
         ++ list_byte_of_string (CRLF +:+ "--" +:+ boundary +:+ "--" +:+ CRLF))%list,
        m3) ∧
    mbody m3 = Some [] ∧ Ctx m3 = Some (default context_Background c).
Proof.
  assert (Hline : ∀ x, list_byte_of_string ("--" +:+ x)
                       = byte_of_ascii "-" :: byte_of_ascii "-" :: list_byte_of_string x)
    by reflexivity.
  unfold AddFileData, Param, writePart, initBody, Multipart_make.
  destruct c as [c|]; cbn -[list_byte_of_string]; rewrite !Hline; cbn -[list_byte_of_string];
    eexists _, _, _; (split; [reflexivity|]); (split; [reflexivity|]);
    cbn -[list_byte_of_string]; rewrite <- !app_assoc; (split; [reflexivity|]); done.
Qed.

(** A builder whose context carries an error, as after [AddFile] of a file
    that cannot be read: [Fetch] makes no request and returns [Err] of that
    context; [r.err] stays nil, the context of the descriptor is cancelled
    with that error as its cause, and the buffer of the builder is
    emptied.  The request of the earlier use stays in the descriptor, with
    the method POST written over a method GET. *)
Theorem Fetch_builder_error (fuel : nat) (r : Request) (w : World) (m : Multipart)
    (boundary : string) (buf : list byte) (c : Context) (e : error) (old : HttpRequest) :
  err r = None → ctx_err (ctx r) = None → body r = [] → finalReq r = Some old →
  multipart r = Some m → wr m = Some boundary → mbody m = Some buf →
  Ctx m = Some c → ctx_err c = Some e →
  ∃ r', Fetch fuel r w = Ret (r', zeroValue (resultType r), Some e) w ∧
        err r' = None ∧
        ctx_err (ctx r') = Some context_Canceled ∧ ctx_cause (ctx r') = Some e ∧
        multipart r' = Some (mkMultipart (Some c) (Some boundary) (Some [])) ∧
        finalReq r' =
          Some (if String.eqb (Method old) MethodGet
                then mkHttpRequest MethodPost (ReqURL old) (ReqHeader old) (ReqBody old)
                else old).
Proof.
  intros He Hc Hb Hf Hm Hwr Hbuf HC Hce.
  unfold Fetch, makeRequest, buildFinalReq, fixMethod, Multipart_make, lift.
  rewrite He, Hc, Hb, Hm, Hf. unfold_monad. cbn -[String.eqb].
  destruct (String.eqb (Method old) MethodGet); cbn; rewrite Hwr, Hbuf; cbn;
    rewrite HC, Hce; cbn; unfold cancelWithCause; rewrite Hc; cbn;
    (eexists; split; [reflexivity|]; by cbn).
Qed.

(** A builder without body: [Fetch] panics on a nil pointer, before
    any request, when the descriptor has no request yet, as [New] leaves
    it, when nothing was added to the builder, or when the builder has no
    context. *)
Theorem Fetch_builder_panics (fuel : nat) (r : Request) (w : World) (m : Multipart) :
  err r = None → ctx_err (ctx r) = None → body r = [] → multipart r = Some m →
  finalReq r = None ∨ wr m = None ∨ mbody m = None ∨ Ctx m = None →
  Fetch fuel r w = Panic nilDeref w.
Proof.
  intros He Hc Hb Hm Hnil.
  unfold Fetch, makeRequest, buildFinalReq, fixMethod, Multipart_make, lift.
  rewrite He, Hc, Hb, Hm. unfold_monad. cbn -[String.eqb].
  destruct (finalReq r) as [old|]; [|done].
  destruct (String.eqb (Method old) MethodGet); cbn.
  all: destruct Hnil as [?|[Hw|[Hw|Hw]]]; [done| | |].
  all: try (by rewrite Hw).
  all: try (rewrite Hw; by destruct (wr m)).
  all: destruct (wr m), (mbody m); cbn; rewrite ?Hw; done.
Qed.

(** [Dump] makes no request and writes nothing: the world is as before and
    it always ends.  On a cancelled descriptor it returns [Err] of the
    context.  It looks at neither the cookies, the multipart builder,
    [r.err] nor the last request: what it prints is the request with the
    raw body and the headers of the descriptor only. *)
Theorem Dump_reads_only (r : Request) (w : World) :
  worldOf (Dump r w) = w ∧
  (∀ w', Dump r w ≠ OutOfFuel w') ∧
  (∀ e, ctx_err (ctx r) = Some e → Dump r w = Ret (None, Some e) w) ∧
  (∀ c m e req,
     Dump (set_finalReq (set_err (set_multipart (set_cookie r c) m) e) req) w = Dump r w).
Proof.
  split; [|split; [|split]].
  - unfold Dump, loadURL, readHeaders. unfold_monad.
    repeat (case_match; simplify_eq; cbn in *; try done).
  - unfold Dump, loadURL, readHeaders. unfold_monad.
    repeat (case_match; simplify_eq; cbn in *; try done).
  - intros e He. unfold Dump. by rewrite He.
  - reflexivity.
Qed.

End BuilderExtras.

(** * The further properties on closed inputs *)

Section ExtrasClosed.
#[local] Existing Instance Plain.externals.
#[local] Existing Instance Fixture.collaborators.

(** The guard on the descriptor with a latched error. *)
Lemma configuration_guard_witness :
  Params Fixture.failed ["a"; "b"] = mret Fixture.failed ∧
  Headers Fixture.failed ["X"; "1"] = mret Fixture.failed ∧
  BodyRaw Fixture.failed Scenario.hello = mret Fixture.failed.
Proof.
  destruct (configuration_guard Fixture.failed eq_refl)
    as (_ & _ & Hparams & Hheaders & _ & _ & _ & Hraw & _).
  split; [apply Hparams|]. split; [apply Hheaders | apply Hraw].
Defined.

Lemma Fetch_latched_witness :
  ∃ e, Fetch 1 Fixture.failed Scenario.world0
       = Ret (Fixture.failed, VString "", Some e) Scenario.world0.
Proof.
  destruct (Fetch_latched 1 Fixture.failed Scenario.world0) as (e & Hrun & _).
  - left. by eexists.
  - exists e. exact Hrun.
Defined.

Lemma Fetch_sleeps_without_retrying_witness :
  transportCalls (worldOf (Fetch 10 Fixture.retrying Scenario.world0)) = 1%nat ∧
  sleeps (worldOf (Fetch 10 Fixture.retrying Scenario.world0)) = [1; 2; 3]%Z.
Proof.
  apply (Fetch_sleeps_without_retrying 10 2 Fixture.retrying Fixture.retryingMade
           Scenario.world0 Scenario.world0 (Plain.always Scenario.unavailable) Fixture.wire
           Scenario.unavailable).
  - reflexivity.
  - reflexivity.
  - by vm_compute.
  - reflexivity.
  - by vm_compute.
  - reflexivity.
  - reflexivity.
  - split; [|reflexivity]. intros [|[|k]] Hk; [reflexivity|reflexivity|lia].
  - lia.
  - by vm_compute.
Defined.

Lemma Clone_aliases_witness :
  headers Fixture.copy = headers Scenario.base ∧ u Fixture.copy = u Scenario.base ∧
  is_Some (finalReq Fixture.copy).
Proof. apply (Clone_aliases Scenario.base Fixture.copy). reflexivity. Defined.

Lemma Fetch_nil_finalReq_witness :
  Fetch 1 (set_body (set_method Scenario.base MethodPost) Scenario.hello) Scenario.world0
  = Panic nilDeref Scenario.world0.
Proof. apply Fetch_nil_finalReq; [reflexivity|reflexivity|reflexivity|discriminate]. Defined.

Lemma Params_even_count_witness :
  ∃ q', Params Scenario.base ["a"; "1"; "b"; "2"] Scenario.world0
        = Ret Scenario.base (withQuery Scenario.world0 2%positive Fixture.address q') ∧
        ∀ key, key ∉ ["a"; "1"; "b"; "2"] →
               q' !! key = url_ParseQuery (RawQuery Fixture.address) !! key.
Proof.
  apply (Params_even_count Scenario.base Scenario.world0 2%positive Fixture.address
           ["a"; "1"; "b"; "2"]); reflexivity.
Defined.

Lemma Params_odd_count_witness :
  ∃ r', Params Scenario.base ["a"] Scenario.world0 = Ret r' Scenario.world0 ∧
        err r' = Some oddParams ∧ cancelled r' = true.
Proof.
  destruct (Params_odd_count Scenario.base Scenario.world0 2%positive Fixture.address ["a"])
    as (r' & Hrun & He & Hc & _); try reflexivity.
  exists r'. by repeat split.
Defined.

Lemma Headers_only_appends_witness :
  ∃ h', Headers Scenario.base ["User-Agent"; "probe"] Scenario.world0
        = Ret Scenario.base (withHeaders Scenario.world0 1%positive h') ∧
        h' !! "User-Agent" = Some ["SomniSom-goreq/1.0"; "probe"].
Proof.
  destruct (Headers_only_appends Scenario.base Scenario.world0 1%positive
              Fixture.defaultHeaders ["User-Agent"; "probe"])
    as (h' & Hrun & _ & _ & Hpair); try reflexivity.
  exists h'. split; [exact Hrun|]. by rewrite (Hpair "User-Agent" "probe" eq_refl).
Defined.

Lemma Headers_compose_witness :
  (r' ← Headers Scenario.base ["X"; "1"]; Headers r' ["X"; "2"]) Scenario.world0
  = Headers Scenario.base ["X"; "1"; "X"; "2"] Scenario.world0.
Proof.
  apply (Headers_compose Scenario.base Scenario.world0 1%positive Fixture.defaultHeaders
           ["X"; "1"] ["X"; "2"]); reflexivity.
Defined.

Lemma BodyJson_marshal_failure_witness :
  ∃ r', @BodyJson Cases.strict Scenario.base "chan" Scenario.world0 = Ret r' Scenario.world0 ∧
        err r' = Some Cases.unsupported ∧ cancelled r' = true ∧ method r' = MethodPost.
Proof.
  destruct (@BodyJson_marshal_failure Cases.strict Scenario.base "chan" Cases.unsupported
              Scenario.world0 eq_refl eq_refl)
    as (r' & Hrun & He & Hc & _ & _ & Hm & _).
  exists r'. by repeat split.
Defined.

Lemma BodyJson_success_witness :
  ∃ r', @BodyJson Plain.externals Scenario.base "{}" Scenario.world0
        = Ret r' (withHeaders Scenario.world0 1%positive
                    (<["Content-Type" := ["application/json"]]> Fixture.defaultHeaders)) ∧
        body r' = list_byte_of_string "{}" ∧ method r' = MethodPost.
Proof.
  destruct (@BodyJson_success Plain.externals Scenario.base "{}" (list_byte_of_string "{}")
              Scenario.world0 1%positive Fixture.defaultHeaders)
    as (r' & Hrun & Hb & Hm & _); try reflexivity.
  exists r'. split; [exact Hrun|]. by split.
Defined.

Lemma Clone_shares_the_address_witness :
  ∃ w', Path_ Fixture.copy "/post" Scenario.world0 = Ret Fixture.copy w' ∧
        addressOf Scenario.base w' = Some (mkURL "" "" "/post" "").
Proof.
  apply (Clone_shares_the_address Scenario.base Fixture.copy Scenario.world0 2%positive
           Fixture.address "/post"); reflexivity.
Defined.

Lemma New_descriptor_witness :
  ∃ r w', New (Plain.always Scenario.unavailable) TString context_Background Scenario.link
              emptyWorld = Ret r w' ∧
          err r = None ∧ method r = MethodGet ∧ finalReq r = None.
Proof.
  destruct (New_descriptor (Plain.always Scenario.unavailable) TString context_Background
              Scenario.link Fixture.address emptyWorld)
    as (r & w' & Hrun & He & _ & Hm & _ & Hf & _); [by vm_compute|reflexivity|].
  exists r, w'. by repeat split.
Defined.

Lemma New_malformed_link_witness :
  ∃ r w', New (Plain.always Scenario.unavailable) TString context_Background ":bad"
              emptyWorld = Ret r w' ∧
          err r = Some Cases.noScheme ∧
          Fetch 1 r w' = Ret (r, VString "", Some Cases.noScheme) w'.
Proof.
  destruct (New_malformed_link (Plain.always Scenario.unavailable) TString
              context_Background ":bad" Cases.noScheme emptyWorld)
    as (r & w' & Hrun & He & _ & _ & Hfetch); [by vm_compute|].
  exists r, w'. split; [exact Hrun|]. split; [exact He | apply Hfetch].
Defined.

Lemma Fetch_plain_success_witness :
  ∃ r' w', Fetch 1 Cases.greeting Scenario.world0 = Ret (r', VString "hello", None) w' ∧
           err r' = None ∧ lastResponse r' = Some (Cases.ok "hello").
Proof.
  destruct (Fetch_plain_success 1 Cases.greeting (Cases.made Cases.greeting)
              Scenario.world0 Scenario.world0 (Plain.always (Cases.ok "hello")) Fixture.wire
              (Cases.ok "hello") (Body (Cases.ok "hello")))
    as (r' & w' & Hrun & He & _ & Hlast & _).
  - reflexivity.
  - reflexivity.
  - by vm_compute.
  - by vm_compute.
  - by vm_compute.
  - reflexivity.
  - reflexivity.
  - left. split; [lia|reflexivity].
  - reflexivity.
  - reflexivity.
  - reflexivity.
  - reflexivity.
  - exists r', w'. split; [exact Hrun|]. by split.
Defined.

Lemma Fetch_json_success_witness :
  ∃ r' w', Fetch 1 Cases.flag Scenario.world0 = Ret (r', VBool true, None) w' ∧
           err r' = None.
Proof.
  destruct (Fetch_json_success 1 Cases.flag (Cases.made Cases.flag)
              Scenario.world0 Scenario.world0 (Plain.always (Cases.ok "true")) Fixture.wire
              (Cases.ok "true") (Body (Cases.ok "true")))
    as (r' & w' & Hrun & He & _).
  - reflexivity.
  - reflexivity.
  - by vm_compute.
  - by vm_compute.
  - by vm_compute.
  - reflexivity.
  - reflexivity.
  - left. split; [lia|reflexivity].
  - reflexivity.
  - reflexivity.
  - exists r', w'. split; [exact Hrun | exact He].
Defined.

Lemma Fetch_transport_error_witness :
  ∃ r', Fetch 1 Cases.unreachable Scenario.world0
        = Ret (r', VString "", Some Cases.refused) (addEvent Scenario.world0 (EvDo Fixture.wire)) ∧
        err r' = Some Cases.refused ∧ ctx r' = context_Background.
Proof.
  destruct (Fetch_transport_error 0 Cases.unreachable (Cases.made Cases.unreachable)
              Scenario.world0 Scenario.world0 Cases.failing Fixture.wire None Cases.refused)
    as (r' & Hrun & He & _ & Hctx).
  - reflexivity.
  - reflexivity.
  - by vm_compute.
  - by vm_compute.
  - by vm_compute.
  - reflexivity.
  - exists r'. split; [exact Hrun|]. split; [exact He | exact Hctx].
Defined.

Lemma Fetch_default_policy_never_sleeps_witness :
  sleeps (worldOf (Fetch 1 Cases.cautious Scenario.world0)) = [].
Proof.
  apply (Fetch_default_policy_never_sleeps 0 Scenario.onlyCodes Cases.cautious Scenario.world0).
  reflexivity.
Defined.

Lemma Fetch_unbounded_policy_witness :
  ∃ w', Fetch 7 Cases.stubborn Scenario.world0 = OutOfFuel w' ∧
        length (sleeps w') = 7%nat ∧ transportCalls w' = 1%nat.
Proof.
  apply (Fetch_unbounded_policy 7 Cases.stubborn (Cases.made Cases.stubborn)
           Scenario.world0 Scenario.world0 (Plain.always Scenario.unavailable) Fixture.wire
           Scenario.unavailable).
  - reflexivity.
  - reflexivity.
  - by vm_compute.
  - by vm_compute.
  - by vm_compute.
  - reflexivity.
  - reflexivity.
  - intros counter. reflexivity.
Defined.

Lemma decompress_passes_through_witness :
  decompress Cases.deflated = inr (Body Cases.deflated).
Proof.
  apply decompress_passes_through.
  apply (bool_decide_unpack _). by vm_compute.
Defined.

Lemma makeRequest_wire_witness :
  Method Fixture.wire = MethodGet ∧
  ReqHeader Fixture.wire !! "User-Agent" = Some ["SomniSom-goreq/1.0"] ∧
  ReqBody Fixture.wire = None.
Proof.
  destruct (makeRequest_wire Scenario.base Scenario.madeRequest Scenario.world0
              Scenario.madeWorld Fixture.wire)
    as (_ & Hmethod & _ & Hheaders & _ & Hnone); [by vm_compute|by vm_compute|].
  split; [exact Hmethod|]. split; [apply Hheaders; by vm_compute|].
  apply Hnone; reflexivity.
Defined.

Lemma any_without_json_witness :
  any (TPtr TInt) (VInt 7) (list_byte_of_string "42") = Ok (VInt 7, None).
Proof. apply (any_without_json TInt). reflexivity. Defined.

Lemma AddFile_unreadable_witness :
  AddFile "b" (mkMultipart None None None) "file" "missing.txt" = Ok Cases.unread.
Proof.
  destruct (AddFile_unreadable "b" (mkMultipart None None None) "file" "missing.txt"
              (Fixture.noSuchFile "missing.txt"))
    as (m' & c' & Hrun & Hwr & Hbody & Hctx & _ & Hnew & _); [by vm_compute|].
  destruct (Hnew ltac:(discriminate)) as [He Hcause].
  rewrite Hrun. f_equal. destruct m' as [c0 w0 b0], c' as [e0 cause0]. cbn in *.
  by simplify_eq.
Defined.

Lemma make_single_use_witness :
  Multipart_make (mkMultipart (Some context_Background) (Some "b") (Some []))
  = Ok ("multipart/form-data; boundary=b",
        list_byte_of_string (CRLF +:+ "--b--" +:+ CRLF),
        mkMultipart (Some context_Background) (Some "b") (Some [])).
Proof.
  destruct (make_single_use (mkMultipart (Some context_Background) (Some "b")
                               (Some (list_byte_of_string "part")))
              (mkMultipart (Some context_Background) (Some "b") (Some []))
              "multipart/form-data; boundary=b"
              (list_byte_of_string ("part" +:+ CRLF +:+ "--b--" +:+ CRLF)) "b" eq_refl eq_refl)
    as (_ & _ & _ & Hagain).
  exact Hagain.
Defined.

(** The policy with [Count] 3 lets three sleeps through. *)
Lemma DefaultRetryOptions_stopsAfter_witness :
  stopsAfter (defaultRetryOptions Scenario.onlyCodes) 3 ∧ (3 < int_max)%Z.
Proof.
  destruct (DefaultRetryOptions_stopsAfter Scenario.onlyCodes) as [Hstops _].
  - by vm_compute.
  - split; [exact Hstops | by vm_compute].
Defined.

Lemma Fetch_builder_error_witness :
  ∃ r', Fetch 1 Cases.reupload Scenario.world0
        = Ret (r', VString "", Some context_Canceled) Scenario.world0 ∧
        err r' = None ∧ ctx_cause (ctx r') = Some context_Canceled ∧
        finalReq r' = Some (mkHttpRequest "POST" Fixture.address Fixture.defaultHeaders None).
Proof.
  destruct (Fetch_builder_error 1 Cases.reupload Scenario.world0 Cases.unread "b" []
              (mkContext (Some context_Canceled) (Some (Fixture.noSuchFile "missing.txt")))
              context_Canceled Fixture.wire)
    as (r' & Hrun & He & _ & Hcause & _ & Hreq); try reflexivity.
  exists r'. split; [exact Hrun|]. split; [exact He|]. split; [exact Hcause|exact Hreq].
Defined.

Lemma Fetch_builder_panics_witness :
  Fetch 1 Cases.emptyUpload Scenario.world0 = Panic nilDeref Scenario.world0.
Proof.
  apply (Fetch_builder_panics 1 Cases.emptyUpload Scenario.world0 (mkMultipart None None None));
    try reflexivity.
  right. left. reflexivity.
Defined.

End ExtrasClosed.

End Goreq.
